(** * Spike extraction pipeline of [load_intan_rhd_format_spike_extraction.py]

    A shallow embedding of [extract_analyze_and_plot_spikes]: the guard on
    the reader's dictionary, the amplitude band, peak detection, window
    extraction and the hand-over to the feature reducer.

    The pipeline is first written over exact rationals ([Q]); the statements
    proved on it are about indices, windows, printed lines and control flow
    and take the sample values, the band and the counts as they come.  The
    lines whose value depends on rounding (the sample counts of lines 83 and
    84, the band of lines 94 and 95, the variance ratios of the reducer) are
    written a second time in IEEE binary64, and the statements about those
    values are proved there.  Sample indices are [nat] where the code
    indexes an array and [Z] where it computes with Python integers. *)

From Stdlib Require Import ZArith QArith Qround Qpower List Sorted Lia Lqa Bool SpecFloat.
From stdpp Require Import base gmap strings.
Import ListNotations.

(** ** Python values, exceptions and console output *)

(** What the reader's dictionary holds under the keys the pipeline reads. *)
Inductive pyval :=
| PyNone
| PyNum (q : Q)
| PyVec (v : list Q)
| PyMat (rows : list (list Q)).

(** The call that raised a [ValueError]. *)
Inductive value_error :=
| Sample_rate_not_found   (* the explicit [raise] after the lookup *)
| Zero_size_max           (* [np.max] of an empty array *)
| Negative_num            (* [np.linspace] with a negative count *)
| X_not_1d                (* [find_peaks] on something that is not 1-D *)
| Inhomogeneous_shape     (* [np.array] on rows of different lengths *)
| Pca_invalid_parameter   (* [PCA]: negative [n_components] *)
| Pca_not_2d              (* [PCA]: no row at all, the array is 1-D *)
| Pca_no_feature          (* [PCA]: rows without columns *)
| Pca_n_components.       (* [PCA]: [n_components] above [min(R, W)] *)

Inductive exn :=
| KeyError (key : string)
| IndexError
| TypeError
| ValueError (what : value_error).

(** The four [print] calls of the function, with the values they format. *)
Inductive event :=
| Print_not_found
| Print_threshold (threshold ratio max_amplitude : Q)
| Print_detected (count : nat) (min_height max_height : Q)
| Print_explained (ratios : list Q).

(** A run prints lines and then either raises or returns. *)
Definition M (A : Type) : Type := (list event * (exn + A))%type.

Definition ret {A} (a : A) : M A := ([], inr a).
Definition raise {A} (e : exn) : M A := ([], inl e).
Definition print (ev : event) : M unit := ([ev], inr tt).
Definition lift {A} (r : exn + A) : M A := ([], r).

Definition bind {A B} (m : M A) (k : A -> M B) : M B :=
  match m with
  | (out, inl e) => (out, inl e)
  | (out, inr a) => let '(out', r) := k a in (out ++ out', r)
  end.

Notation "x <- m ;; k" := (bind m (fun x => k))
  (at level 100, m at next level, right associativity).
Notation "m ;;; k" := (bind m (fun _ => k))
  (at level 100, right associativity).

(** ** Numbers *)

Definition Qlt_bool (a b : Q) : bool := negb (Qle_bool b a).

(** Python's [int] on a number: truncation toward zero. *)
Definition py_int (q : Q) : Z := Z.quot (Qnum q) (Zpos (Qden q)).

(** [int((t / 1000) * sample_rate)], lines 83 and 84, in exact arithmetic;
    [to_samples_b64] is the same line as the interpreter rounds it. *)
Definition to_samples (t sample_rate : Q) : Z :=
  py_int ((t / 1000) * sample_rate)%Q.

(** [x[i]] for an index the caller keeps in range. *)
Definition at_index (x : list Q) (i : nat) : Q := nth i x 0%Q.

(** ** Threshold estimator, lines 89 to 95 *)

(** The running maximum of the reduction. *)
Definition keep_larger (acc y : Q) : Q := if Qlt_bool acc y then y else acc.

Definition np_max (signal : list Q) : exn + Q :=
  match signal with
  | [] => inl (ValueError Zero_size_max)
  | x :: xs => inr (fold_left keep_larger xs x)
  end.

Record estimate := {
  max_amplitude : Q;
  threshold : Q;
  min_height : Q;
  max_height : Q
}.

(** The band of lines 94 and 95 in exact arithmetic; [band_min_b64] and
    [band_max_b64] are the same lines as the interpreter rounds them. *)
Definition band_min (max_amp : Q) : Q := ((1 / 3) * max_amp)%Q.
Definition band_max (max_amp : Q) : Q := ((1 / 2) * max_amp)%Q.

Definition threshold_estimator (signal : list Q) (threshold_ratio : Q)
  : exn + estimate :=
  match np_max signal with
  | inl e => inl e
  | inr m => inr {| max_amplitude := m;
                    threshold := (threshold_ratio * m)%Q;
                    min_height := band_min m;
                    max_height := band_max m |}
  end.

(** ** Peak detector: [scipy.signal.find_peaks(signal, height=(lo, hi))]

    The library's scan for local maxima: a sample higher than its left
    neighbour opens a candidate, equal samples are skipped, and the candidate
    is a peak when the next different sample is lower.  The middle of the
    flat top, rounded down, is reported. *)

Fixpoint look_ahead (x : list Q) (xi : Q) (i_max fuel i_ahead : nat) : nat :=
  match fuel with
  | O => i_ahead
  | S fuel' =>
      if (i_ahead <? i_max) && Qeq_bool (at_index x i_ahead) xi
      then look_ahead x xi i_max fuel' (S i_ahead)
      else i_ahead
  end.

Fixpoint local_maxima_from (x : list Q) (i_max fuel i : nat) : list nat :=
  match fuel with
  | O => []
  | S fuel' =>
      if i <? i_max then
        if Qlt_bool (at_index x (i - 1)) (at_index x i) then
          let i_ahead := look_ahead x (at_index x i) i_max (i_max - i) (i + 1) in
          if Qlt_bool (at_index x i_ahead) (at_index x i)
          then ((i + (i_ahead - 1)) / 2) :: local_maxima_from x i_max fuel' (i_ahead + 1)
          else local_maxima_from x i_max fuel' (i + 1)
        else local_maxima_from x i_max fuel' (i + 1)
      else []
  end.

(** [i] starts at 1 and stops before the last sample. *)
Definition local_maxima_1d (x : list Q) : list nat :=
  local_maxima_from x (length x - 1) (length x) 1.

(** The [height] condition keeps a peak when [lo <= x[p] <= hi]. *)
Definition select_by_height (x : list Q) (lo hi : Q) (p : nat) : bool :=
  Qle_bool lo (at_index x p) && Qle_bool (at_index x p) hi.

Definition find_peaks (x : list Q) (lo hi : Q) : list nat :=
  List.filter (select_by_height x lo hi) (local_maxima_1d x).

(** ** Waveform extractor, lines 102 to 110 *)

(** [l[start:stop]] with Python's treatment of negative and large bounds. *)
Definition slice_bound (n b : Z) : Z :=
  if (b <? 0)%Z then Z.max 0 (b + n) else Z.min b n.

Definition py_slice {A} (l : list A) (start stop : Z) : list A :=
  let n := Z.of_nat (length l) in
  let a := slice_bound n start in
  let b := slice_bound n stop in
  firstn (Z.to_nat (b - a)) (skipn (Z.to_nat a) l).

Definition window_start (spike : nat) (pre_samples : Z) : Z :=
  Z.max 0 (Z.of_nat spike - pre_samples).
Definition window_end (signal : list Q) (spike : nat) (post_samples : Z) : Z :=
  Z.min (Z.of_nat (length signal)) (Z.of_nat spike + post_samples).

(** One turn of the [for] loop: append the window or leave the list alone. *)
Definition extract_step (signal : list Q) (pre_samples post_samples : Z)
    (spike_waveforms : list (list Q)) (spike : nat) : list (list Q) :=
  let start := window_start spike pre_samples in
  let end_ := window_end signal spike post_samples in
  if (end_ - start =? pre_samples + post_samples)%Z
  then spike_waveforms ++ [py_slice signal start end_]
  else spike_waveforms.

Definition extract_waveforms (signal : list Q) (spikes : list nat)
    (pre_samples post_samples : Z) : list (list Q) :=
  fold_left (extract_step signal pre_samples post_samples) spikes [].

(** [np.linspace(start, stop, num)]: [num] points, both ends included.  The
    inner points are exact here; nothing below depends on their values,
    only on how many there are. *)
Definition np_linspace (start stop : Q) (num : Z) : exn + list Q :=
  if (num <? 0)%Z then inl (ValueError Negative_num)
  else match Z.to_nat num with
       | O => inr []
       | S O => inr [start]
       | S (S k) =>
           let step := ((stop - start) / inject_Z (num - 1))%Q in
           inr (map (fun i => (start + inject_Z (Z.of_nat i) * step)%Q) (seq 0 (S k))
                  ++ [stop])
       end.

(** [np.array] on the list of windows: the rows must agree in length. *)
Definition np_array (rows : list (list Q)) : exn + list (list Q) :=
  match rows with
  | [] => inr []
  | r :: rs =>
      if forallb (fun r' => length r' =? length r) rs then inr rows
      else inl (ValueError Inhomogeneous_shape)
  end.

(** ** Feature reducer: [PCA(n_components).fit_transform], lines 113 to 115 *)

Record pca := {
  n_components_ : Z;
  explained_variance_ratio_ : list Q
}.

(** What the function hands back, line 117. *)
Record output := {
  out_signal : list Q;
  out_time : pyval;
  out_aligned_time : list Q;
  out_spike_waveforms : list (list Q);
  out_spikes : list nat;
  out_spike_features : list (list Q);
  out_pca : pca
}.

Section Pipeline.

(** The factorisation itself is the library's numerical code.  It enters
    as a function of the state of the random generator, the number of
    components and the matrix, and yields the projected rows and the
    explained variance ratios. *)
Variable random_state : Type.
Variable svd_solve :
  random_state -> Z -> list (list Q) -> list (list Q) * list Q.

(** The library's checks before it factorises: a non-negative
    [n_components], a 2-D array with at least one row and one column, and
    [n_components <= min(n_samples, n_features)]. *)
Definition fit_transform (rs : random_state) (n_components : Z)
    (X : list (list Q)) : exn + (list (list Q) * pca) :=
  if (n_components <? 0)%Z then inl (ValueError Pca_invalid_parameter)
  else match X with
       | [] => inl (ValueError Pca_not_2d)
       | row :: _ =>
           if (length row =? 0)%nat then inl (ValueError Pca_no_feature)
           else if (Z.of_nat (Nat.min (length X) (length row)) <? n_components)%Z
           then inl (ValueError Pca_n_components)
           else
             let '(features, ratios) := svd_solve rs n_components X in
             inr (features, {| n_components_ := n_components;
                               explained_variance_ratio_ := ratios |})
       end.

(** [l[i]] for a Python integer: a negative index counts from the end. *)
Definition py_index {A} (l : list A) (i : Z) : exn + A :=
  let n := Z.of_nat (length l) in
  let j := if (i <? 0)%Z then (i + n)%Z else i in
  if ((j <? 0) || (n <=? j))%Z then inl IndexError
  else match nth_error l (Z.to_nat j) with
       | Some a => inr a
       | None => inl IndexError
       end.

(** [result['amplifier_data'][channel_index]]: a row of the table, or one
    sample when the entry is a plain vector; a number and [None] cannot be
    indexed. *)
Definition select_channel (amplifier_data : pyval) (channel_index : Z)
  : exn + (list Q + Q) :=
  match amplifier_data with
  | PyMat rows =>
      match py_index rows channel_index with
      | inr row => inr (inl row)
      | inl e => inl e
      end
  | PyVec v =>
      match py_index v channel_index with
      | inr q => inr (inr q)
      | inl e => inl e
      end
  | PyNum _ | PyNone => inl TypeError
  end.

(** Lines 82 to 117, once the signal and the sample rate are in hand. *)
Definition analyze (rs : random_state) (signal : list Q) (time : pyval)
    (sample_rate threshold_ratio pre_time post_time : Q) (n_components : Z)
  : M (option output) :=
  let pre_samples := to_samples pre_time sample_rate in
  let post_samples := to_samples post_time sample_rate in
  est <- lift (threshold_estimator signal threshold_ratio) ;;
  print (Print_threshold (threshold est) threshold_ratio (max_amplitude est)) ;;;
  let spikes := find_peaks signal (min_height est) (max_height est) in
  print (Print_detected (length spikes) (min_height est) (max_height est)) ;;;
  aligned_time <- lift (np_linspace (- pre_time) post_time
                          (pre_samples + post_samples)) ;;
  spike_waveforms <- lift (np_array (extract_waveforms signal spikes
                                       pre_samples post_samples)) ;;
  fitted <- lift (fit_transform rs n_components spike_waveforms) ;;
  print (Print_explained (explained_variance_ratio_ (snd fitted))) ;;;
  ret (Some {| out_signal := signal;
               out_time := time;
               out_aligned_time := aligned_time;
               out_spike_waveforms := spike_waveforms;
               out_spikes := spikes;
               out_spike_features := fst fitted;
               out_pca := snd fitted |}).

(** The whole function.  [None] is the bare [return] of line 73.  The
    reader stores the sample rate as a number; an array in its place stops
    the run at [int(...)], rendered here as [TypeError]. *)
Definition extract_analyze_and_plot_spikes (rs : random_state)
    (result : gmap string pyval) (channel_index : Z)
    (threshold_ratio pre_time post_time : Q) (n_components : Z)
  : M (option output) :=
  match result !! "amplifier_data", result !! "t_amplifier" with
  | Some amplifier_data, Some time =>
      signal <- lift (select_channel amplifier_data channel_index) ;;
      match result !! "sample_rate" with
      | None => raise (KeyError "sample_rate")
      | Some PyNone => raise (ValueError Sample_rate_not_found)
      | Some (PyNum sample_rate) =>
          match signal with
          | inl row =>
              analyze rs row time sample_rate threshold_ratio
                      pre_time post_time n_components
          | inr sample =>
              (* a 0-d signal: its maximum is itself, and the peak
                 detector refuses it *)
              print (Print_threshold (threshold_ratio * sample)%Q
                                     threshold_ratio sample) ;;;
              raise (ValueError X_not_1d)
          end
      | Some (PyVec _) | Some (PyMat _) => raise TypeError
      end
  | _, _ => print Print_not_found ;;; ret None
  end.

End Pipeline.

(** ** The caller's objects

    What outlives a call: the dictionary handed in, which lines 69 to 117
    only read (no item is assigned, slices are taken and never written to,
    [np.array] and the reducer work on copies), and the state of the random
    generator, which only a factorisation can advance. *)
Record world (random_state : Type) := {
  caller_result : gmap string pyval;
  generator : random_state
}.
Arguments caller_result {random_state} _.
Arguments generator {random_state} _.

Section Caller.

Variable random_state : Type.
Variable svd_solve :
  random_state -> Z -> list (list Q) -> list (list Q) * list Q.
(** The generator after a factorisation of the given matrix. *)
Variable advance : random_state -> Z -> list (list Q) -> random_state.

(** A call made in a world: the world it leaves behind and how it ends. *)
Definition call (w : world random_state) (channel_index : Z)
    (threshold_ratio pre_time post_time : Q) (n_components : Z)
  : world random_state * M (option output) :=
  let run := extract_analyze_and_plot_spikes random_state svd_solve
               (generator w) (caller_result w) channel_index threshold_ratio
               pre_time post_time n_components in
  (match run with
   | (_, inr (Some o)) =>
       {| caller_result := caller_result w;
          generator := advance (generator w) n_components (out_spike_waveforms o) |}
   | _ => w
   end, run).

End Caller.

(** ** Properties the statements below speak about *)

(** [l..r] is a flat top of [x]: equal samples, with a strictly lower sample
    right before and right after, all inside the array. *)
Definition flat_peak (x : list Q) (l r : nat) : Prop :=
  1 <= l /\ l <= r /\ r + 1 < length x /\
  (at_index x (l - 1) < at_index x l)%Q /\
  (forall t, l <= t <= r -> (at_index x t == at_index x l)%Q) /\
  (at_index x (r + 1) < at_index x l)%Q.

(** [s] is strictly higher than both of its neighbours. *)
Definition strict_local_max (x : list Q) (s : nat) : Prop :=
  (at_index x (s - 1) < at_index x s)%Q /\
  (at_index x (s + 1) < at_index x s)%Q.

(** No two neighbouring samples are equal. *)
Definition no_plateau (x : list Q) : Prop :=
  forall i, i + 1 < length x -> ~ (at_index x i == at_index x (i + 1))%Q.

(** A printed line with the reported threshold and ratio blanked out. *)
Definition hide_threshold (ev : event) : event :=
  match ev with
  | Print_threshold _ _ m => Print_threshold 0 0 m
  | other => other
  end.

(** The returned tuple with another object in the place of [time]. *)
Definition set_time (t : pyval) (o : output) : output :=
  {| out_signal := out_signal o;
     out_time := t;
     out_aligned_time := out_aligned_time o;
     out_spike_waveforms := out_spike_waveforms o;
     out_spikes := out_spikes o;
     out_spike_features := out_spike_features o;
     out_pca := out_pca o |}.

Definition map_output (f : output -> output) (m : M (option output))
  : M (option output) :=
  match m with
  | (out, inr (Some o)) => (out, inr (Some (f o)))
  | other => other
  end.

(** The errors that come out of the feature reducer. *)
Definition raised_by_pca (what : value_error) : Prop :=
  what = Pca_invalid_parameter \/ what = Pca_not_2d \/
  what = Pca_no_feature \/ what = Pca_n_components.

(** The candidate window of a spike was not clipped. *)
Definition window_fits (signal : list Q) (pre_samples post_samples : Z)
    (spike : nat) : bool :=
  (window_end signal spike post_samples - window_start spike pre_samples
   =? pre_samples + post_samples)%Z.

(** The samples of the half-open window [[start, end)]. *)
Definition window_samples (signal : list Q) (pre_samples post_samples : Z)
    (spike : nat) : list Q :=
  let start := window_start spike pre_samples in
  let end_ := window_end signal spike post_samples in
  firstn (Z.to_nat (end_ - start)) (skipn (Z.to_nat start) signal).

(** The spikes whose window lies inside the signal. *)
Definition kept_spikes (signal : list Q) (spikes : list nat)
    (pre_samples post_samples : Z) : list nat :=
  List.filter
    (fun s => (pre_samples <=? Z.of_nat s)%Z &&
              (Z.of_nat s + post_samples <=? Z.of_nat (length signal))%Z)
    spikes.

(** ** The script, lines 119 to 217 *)

(** Unpacking the returned value into seven names, line 122: [None] cannot
    be unpacked. *)
Definition unpack (r : option output) : exn + output :=
  match r with
  | Some o => inr o
  | None => inl TypeError
  end.

(** The call of line 122 with its fixed arguments: channel 0, ratio 0.3,
    1 ms before and 2 ms after the spike, two components. *)
Definition main_call (random_state : Type)
    (svd_solve : random_state -> Z -> list (list Q) -> list (list Q) * list Q)
    (rs : random_state) (result : gmap string pyval) : M output :=
  r <- extract_analyze_and_plot_spikes random_state svd_solve rs result
         0 (3 # 10) 1 2 2 ;;
  lift (unpack r).

(** ** The numeric lines in binary64

    Lines 83 to 95 and the variance ratios of the reducer compute with
    Python floats.  The definitions above read them in exact arithmetic,
    which is all the statements about indices, windows and control flow
    need.  Here the same lines are evaluated as the interpreter does, in
    IEEE binary64 with rounding to nearest even, on the Standard Library's
    specification of the format. *)

Definition b64 : Type := spec_float.

Definition b64_of_Z (z : Z) : b64 := binary_normalize 53 1024 z 0 false.
Definition b64_mul : b64 -> b64 -> b64 := SFmul 53 1024.
Definition b64_div : b64 -> b64 -> b64 := SFdiv 53 1024.
Definition b64_leb : b64 -> b64 -> bool := SFleb.
Definition b64_ltb : b64 -> b64 -> bool := SFltb.
Definition b64_eqb : b64 -> b64 -> bool := SFeqb.

Definition is_nan (f : b64) : bool :=
  match f with
  | S754_nan => true
  | _ => false
  end.

(** The rational a finite float stands for. *)
Definition b64_value (f : b64) : Q :=
  match f with
  | S754_finite s m e => (inject_Z (cond_Zopp s (Z.pos m)) * Qpower 2 e)%Q
  | _ => 0%Q
  end.

(** [int(x)] on a float raises on NaN ([ValueError]) and on an infinity
    ([OverflowError]) and truncates a finite value toward zero. *)
Inductive int_error :=
| Nan_to_integer
| Infinity_to_integer.

Definition py_int_b64 (f : b64) : int_error + Z :=
  match f with
  | S754_nan => inl Nan_to_integer
  | S754_infinity _ => inl Infinity_to_integer
  | S754_zero _ => inr 0%Z
  | S754_finite _ _ _ => inr (py_int (b64_value f))
  end.

(** [int((t / 1000) * sample_rate)], lines 83 and 84, as computed. *)
Definition to_samples_b64 (t sample_rate : b64) : int_error + Z :=
  py_int_b64 (b64_mul (b64_div t (b64_of_Z 1000)) sample_rate).

(** One step of the maximum reduction of [np.max]: the larger of the two,
    and a NaN once met stays.  The order in which the library combines the
    samples can only change the sign of a zero result. *)
Definition scalar_max (a b : b64) : b64 :=
  if b64_leb b a || is_nan a then a else b.

Definition np_max_b64 (signal : list b64) : exn + b64 :=
  match signal with
  | [] => inl (ValueError Zero_size_max)
  | x :: xs => inr (fold_left scalar_max xs x)
  end.

Record estimate_b64 := {
  max_amplitude_b64 : b64;
  threshold_b64 : b64;
  min_height_b64 : b64;
  max_height_b64 : b64
}.

(** [(1/3) * max_amplitude] and [(1/2) * max_amplitude], lines 94 and 95:
    the quotient is rounded first, then the product. *)
Definition band_min_b64 (max_amp : b64) : b64 :=
  b64_mul (b64_div (b64_of_Z 1) (b64_of_Z 3)) max_amp.
Definition band_max_b64 (max_amp : b64) : b64 :=
  b64_mul (b64_div (b64_of_Z 1) (b64_of_Z 2)) max_amp.

(** Lines 89 to 95 on a signal of floats. *)
Definition threshold_estimator_b64 (signal : list b64) (threshold_ratio : b64)
  : exn + estimate_b64 :=
  match np_max_b64 signal with
  | inl e => inl e
  | inr m => inr {| max_amplitude_b64 := m;
                    threshold_b64 := b64_mul threshold_ratio m;
                    min_height_b64 := band_min_b64 m;
                    max_height_b64 := band_max_b64 m |}
  end.





(** No NaN among the samples. *)
Definition nan_free (signal : list b64) : Prop :=
  List.Forall (fun x => is_nan x = false) signal.

(** Zero, a positive finite number or plus infinity. *)
Definition b64_nonneg (f : b64) : Prop :=
  match f with
  | S754_zero _ | S754_finite false _ _ | S754_infinity false => True
  | _ => False
  end.


(** A float that is not NaN, placed in the order on triples of integers:
    class first (infinities outermost, zero in the middle), then exponent
    and mantissa, both reversed for negative numbers. *)
Definition b64_key (f : b64) : Z * Z * Z :=
  match f with
  | S754_infinity true => (-2, 0, 0)%Z
  | S754_finite true m e => (-1, - e, Z.neg m)%Z
  | S754_zero _ => (0, 0, 0)%Z
  | S754_nan => (0, 0, 0)%Z
  | S754_finite false m e => (1, e, Z.pos m)%Z
  | S754_infinity false => (2, 0, 0)%Z
  end.

Definition key_le (k1 k2 : Z * Z * Z) : Prop :=
  let '(a1, b1, c1) := k1 in
  let '(a2, b2, c2) := k2 in
  (a1 < a2 \/ (a1 = a2 /\ (b1 < b2 \/ (b1 = b2 /\ c1 <= c2))))%Z.

(** ** Facts about the numbers *)

Lemma Qlt_bool_iff (a b : Q) : Qlt_bool a b = true <-> (a < b)%Q.
Proof.
  unfold Qlt_bool. rewrite negb_true_iff.
  split; intros H.
  - apply Qnot_le_lt. intros Hle. apply Qle_bool_iff in Hle. congruence.
  - destruct (Qle_bool b a) eqn:E; [|reflexivity].
    apply Qle_bool_iff in E. exfalso. exact (Qlt_not_le _ _ H E).
Qed.

Lemma Qlt_bool_false (a b : Q) : Qlt_bool a b = false <-> (b <= a)%Q.
Proof.
  unfold Qlt_bool. rewrite negb_false_iff. apply Qle_bool_iff.
Qed.

(** ** The maximum *)

Lemma keep_larger_cases (acc y : Q) :
  (keep_larger acc y = y /\ (acc < y)%Q) \/
  (keep_larger acc y = acc /\ (y <= acc)%Q).
Proof.
  unfold keep_larger. destruct (Qlt_bool acc y) eqn:E.
  - left. split; [reflexivity | now apply Qlt_bool_iff].
  - right. split; [reflexivity | now apply Qlt_bool_false].
Qed.

Lemma fold_keep_larger_In (xs : list Q) (x : Q) :
  In (fold_left keep_larger xs x) (x :: xs).
Proof.
  revert x. induction xs as [|y ys IH]; intros x; simpl.
  - now left.
  - destruct (keep_larger_cases x y) as [[-> _]|[-> _]].
    + right. apply IH.
    + destruct (IH x) as [H|H]; [left; exact H | right; right; exact H].
Qed.

Lemma fold_keep_larger_ge (xs : list Q) (x : Q) :
  (x <= fold_left keep_larger xs x)%Q.
Proof.
  revert x. induction xs as [|y ys IH]; intros x; simpl.
  - apply Qle_refl.
  - destruct (keep_larger_cases x y) as [[-> H]|[-> _]].
    + eapply Qle_trans; [apply Qlt_le_weak, H | apply IH].
    + apply IH.
Qed.

Lemma fold_keep_larger_upper (xs : list Q) (x z : Q) :
  In z (x :: xs) -> (z <= fold_left keep_larger xs x)%Q.
Proof.
  revert x. induction xs as [|y ys IH]; intros x Hin.
  - destruct Hin as [->|[]]. apply Qle_refl.
  - simpl. destruct Hin as [->|[->|Hin]].
    + destruct (keep_larger_cases z y) as [[-> H]|[-> _]].
      * eapply Qle_trans; [apply Qlt_le_weak, H | apply fold_keep_larger_ge].
      * apply fold_keep_larger_ge.
    + destruct (keep_larger_cases x z) as [[-> _]|[-> H]].
      * apply fold_keep_larger_ge.
      * eapply Qle_trans; [exact H | apply fold_keep_larger_ge].
    + apply IH. now right.
Qed.

Lemma np_max_nonempty (signal : list Q) :
  signal <> [] ->
  exists m, np_max signal = inr m /\ In m signal /\
            forall x, In x signal -> (x <= m)%Q.
Proof.
  destruct signal as [|x xs]; [congruence|]. intros _.
  exists (fold_left keep_larger xs x). split; [reflexivity|]. split.
  - apply fold_keep_larger_In.
  - intros z Hz. now apply fold_keep_larger_upper.
Qed.

(** ** The peak detector *)

Lemma look_ahead_spec (x : list Q) (xi : Q) (i_max fuel j : nat) :
  j <= look_ahead x xi i_max fuel j /\
  (j <= i_max -> look_ahead x xi i_max fuel j <= i_max) /\
  forall t, j <= t < look_ahead x xi i_max fuel j -> (at_index x t == xi)%Q.
Proof.
  revert j. induction fuel as [|fuel IH]; intros j; simpl.
  - repeat split; [lia | lia | intros t Ht; lia].
  - destruct ((j <? i_max) && Qeq_bool (at_index x j) xi) eqn:E.
    + apply andb_true_iff in E as [Hlt Heq].
      apply Nat.ltb_lt in Hlt. apply Qeq_bool_iff in Heq.
      destruct (IH (S j)) as (H1 & H2 & H3).
      split; [lia|]. split; [intros _; apply H2; lia|].
      intros t Ht. destruct (Nat.eq_dec t j) as [->|Hne]; [exact Heq|].
      apply H3. lia.
    + repeat split; [lia | lia | intros t Ht; lia].
Qed.

Lemma half_between (l r : nat) : l <= r -> l <= (l + r) / 2 <= r.
Proof.
  intros H. split.
  - apply Nat.div_le_lower_bound; lia.
  - apply Nat.Div0.div_le_upper_bound; lia.
Qed.

Lemma local_maxima_from_sound (x : list Q) (fuel i m : nat) :
  1 <= i ->
  In m (local_maxima_from x (length x - 1) fuel i) ->
  exists l r, flat_peak x l r /\ i <= l /\ m = (l + r) / 2.
Proof.
  revert i. induction fuel as [|fuel IH]; intros i Hi Hin; simpl in Hin.
  - destruct Hin.
  - destruct (i <? length x - 1) eqn:Hlt; [|destruct Hin].
    apply Nat.ltb_lt in Hlt.
    destruct (Qlt_bool (at_index x (i - 1)) (at_index x i)) eqn:Hleft.
    + destruct (look_ahead_spec x (at_index x i) (length x - 1)
                  (length x - 1 - i) (i + 1)) as (K1 & K2 & K3).
      set (k := look_ahead x (at_index x i) (length x - 1)
                  (length x - 1 - i) (i + 1)) in *.
      destruct (Qlt_bool (at_index x k) (at_index x i)) eqn:Hright.
      * destruct Hin as [<-|Hin].
        -- exists i, (k - 1). split; [|split; [lia | reflexivity]].
           apply Qlt_bool_iff in Hleft. apply Qlt_bool_iff in Hright.
           assert (Hk : k <= length x - 1) by (apply K2; lia).
           unfold flat_peak. repeat split; try lia; try assumption.
           ++ intros t Ht. destruct (Nat.eq_dec t i) as [->|Hne];
                [reflexivity | apply K3; lia].
           ++ replace (k - 1 + 1) with k by lia. exact Hright.
        -- destruct (IH (k + 1)) as (l & r & Hp & Hl & Hm); [lia | exact Hin |].
           exists l, r. split; [exact Hp | split; [lia | exact Hm]].
      * destruct (IH (i + 1)) as (l & r & Hp & Hl & Hm); [lia | exact Hin |].
        exists l, r. split; [exact Hp | split; [lia | exact Hm]].
    + destruct (IH (i + 1)) as (l & r & Hp & Hl & Hm); [lia | exact Hin |].
      exists l, r. split; [exact Hp | split; [lia | exact Hm]].
Qed.

Lemma local_maxima_from_lower (x : list Q) (i_max fuel i m : nat) :
  In m (local_maxima_from x i_max fuel i) -> i <= m.
Proof.
  revert i. induction fuel as [|fuel IH]; intros i Hin; simpl in Hin.
  - destruct Hin.
  - destruct (i <? i_max); [|destruct Hin].
    destruct (Qlt_bool (at_index x (i - 1)) (at_index x i)).
    + destruct (look_ahead_spec x (at_index x i) i_max (i_max - i) (i + 1))
        as (K1 & _ & _).
      set (k := look_ahead x (at_index x i) i_max (i_max - i) (i + 1)) in *.
      destruct (Qlt_bool (at_index x k) (at_index x i)).
      * destruct Hin as [<-|Hin].
        -- apply (half_between i (k - 1)). lia.
        -- apply IH in Hin. lia.
      * apply IH in Hin. lia.
    + apply IH in Hin. lia.
Qed.

Lemma local_maxima_from_sorted (x : list Q) (i_max fuel i : nat) :
  StronglySorted lt (local_maxima_from x i_max fuel i).
Proof.
  revert i. induction fuel as [|fuel IH]; intros i; cbn [local_maxima_from].
  - constructor.
  - destruct (i <? i_max); [|constructor].
    destruct (Qlt_bool (at_index x (i - 1)) (at_index x i)); [|apply IH].
    destruct (look_ahead_spec x (at_index x i) i_max (i_max - i) (i + 1))
      as (K1 & _ & _).
    set (k := look_ahead x (at_index x i) i_max (i_max - i) (i + 1)) in *.
    destruct (Qlt_bool (at_index x k) (at_index x i)); [|apply IH].
    constructor; [apply IH|].
    apply List.Forall_forall. intros m Hm. apply local_maxima_from_lower in Hm.
    pose proof (half_between i (k - 1)). lia.
Qed.

Lemma StronglySorted_lt_filter (f : nat -> bool) (l : list nat) :
  StronglySorted lt l -> StronglySorted lt (List.filter f l).
Proof.
  induction 1 as [|a l Hs IH Hall]; simpl; [constructor|].
  destruct (f a); [|exact IH].
  constructor; [exact IH|].
  apply List.Forall_forall. intros y Hy. apply filter_In in Hy as [Hy _].
  rewrite List.Forall_forall in Hall. now apply Hall.
Qed.

Lemma StronglySorted_lt_NoDup (l : list nat) :
  StronglySorted lt l -> List.NoDup l.
Proof.
  induction 1 as [|a l Hs IH Hall]; constructor; [|exact IH].
  intros Hin. rewrite List.Forall_forall in Hall. specialize (Hall a Hin). lia.
Qed.

(** The fuel of both loops is enough: more of it changes nothing. *)
Lemma look_ahead_fuel (x : list Q) (xi : Q) (i_max f1 f2 j : nat) :
  i_max - j <= f1 -> i_max - j <= f2 ->
  look_ahead x xi i_max f1 j = look_ahead x xi i_max f2 j.
Proof.
  revert f2 j. induction f1 as [|f1 IH]; intros f2 j H1 H2.
  - destruct f2 as [|f2]; [reflexivity|]. simpl.
    replace (j <? i_max) with false; [reflexivity|].
    symmetry. apply Nat.ltb_ge. lia.
  - destruct f2 as [|f2]; simpl.
    + replace (j <? i_max) with false; [reflexivity|].
      symmetry. apply Nat.ltb_ge. lia.
    + destruct (j <? i_max) eqn:E; [|reflexivity]. apply Nat.ltb_lt in E.
      destruct (Qeq_bool (at_index x j) xi); [|reflexivity]. simpl.
      apply IH; lia.
Qed.

Lemma local_maxima_from_fuel (x : list Q) (i_max f1 f2 i : nat) :
  i_max - i <= f1 -> i_max - i <= f2 ->
  local_maxima_from x i_max f1 i = local_maxima_from x i_max f2 i.
Proof.
  revert f2 i. induction f1 as [|f1 IH]; intros f2 i H1 H2.
  - destruct f2 as [|f2]; [reflexivity|]. cbn [local_maxima_from].
    replace (i <? i_max) with false; [reflexivity|].
    symmetry. apply Nat.ltb_ge. lia.
  - destruct f2 as [|f2]; cbn [local_maxima_from].
    + replace (i <? i_max) with false; [reflexivity|].
      symmetry. apply Nat.ltb_ge. lia.
    + destruct (i <? i_max) eqn:E; [|reflexivity]. apply Nat.ltb_lt in E.
      destruct (Qlt_bool (at_index x (i - 1)) (at_index x i));
        [|apply IH; lia].
      destruct (look_ahead_spec x (at_index x i) i_max (i_max - i) (i + 1))
        as (K1 & _ & _).
      set (k := look_ahead x (at_index x i) i_max (i_max - i) (i + 1)) in *.
      destruct (Qlt_bool (at_index x k) (at_index x i)).
      * f_equal. apply IH; lia.
      * apply IH; lia.
Qed.

Lemma local_maxima_1d_fuel (x : list Q) (extra : nat) :
  local_maxima_from x (length x - 1) (length x + extra) 1 = local_maxima_1d x.
Proof. unfold local_maxima_1d. apply local_maxima_from_fuel; lia. Qed.

Lemma find_peaks_in (x : list Q) (lo hi : Q) (s : nat) :
  In s (find_peaks x lo hi) ->
  (lo <= at_index x s)%Q /\ (at_index x s <= hi)%Q /\
  exists l r, flat_peak x l r /\ s = (l + r) / 2.
Proof.
  unfold find_peaks, local_maxima_1d. intros H.
  apply filter_In in H as [Hin Hsel].
  unfold select_by_height in Hsel. apply andb_true_iff in Hsel as [Hlo Hhi].
  apply Qle_bool_iff in Hlo. apply Qle_bool_iff in Hhi.
  split; [exact Hlo|]. split; [exact Hhi|].
  apply local_maxima_from_sound in Hin; [|lia].
  destruct Hin as (l & r & Hp & _ & Hm). now exists l, r.
Qed.

Lemma find_peaks_sorted (x : list Q) (lo hi : Q) :
  StronglySorted lt (find_peaks x lo hi).
Proof.
  unfold find_peaks, local_maxima_1d.
  apply StronglySorted_lt_filter, local_maxima_from_sorted.
Qed.

(** The middle of a flat top is inside the array, away from both ends, and
    no neighbour is higher. *)
Lemma flat_peak_middle (x : list Q) (l r : nat) :
  flat_peak x l r ->
  let s := (l + r) / 2 in
  0 < s /\ s < length x - 1 /\
  (at_index x (s - 1) <= at_index x s)%Q /\
  (at_index x (s + 1) <= at_index x s)%Q /\
  (no_plateau x -> strict_local_max x s).
Proof.
  intros (Hl & Hlr & Hr & Hleft & Hflat & Hright) s.
  pose proof (half_between l r Hlr) as Hs. fold s in Hs.
  assert (Es : (at_index x s == at_index x l)%Q) by (apply Hflat; lia).
  assert (Hprev : (at_index x (s - 1) <= at_index x s)%Q /\
                  (s = l -> (at_index x (s - 1) < at_index x s)%Q)).
  { destruct (Nat.eq_dec s l) as [E|E].
    - rewrite E in *. split; [apply Qlt_le_weak; exact Hleft | intros _; exact Hleft].
    - split; [|intros; lia]. rewrite Es.
      rewrite (Hflat (s - 1)) by lia. apply Qle_refl. }
  assert (Hnext : (at_index x (s + 1) <= at_index x s)%Q /\
                  (s = r -> (at_index x (s + 1) < at_index x s)%Q)).
  { destruct (Nat.eq_dec s r) as [E|E].
    - rewrite Es. rewrite E.
      split; [apply Qlt_le_weak; exact Hright | intros _; exact Hright].
    - split; [|intros; lia]. rewrite Es.
      rewrite (Hflat (s + 1)) by lia. apply Qle_refl. }
  split; [lia|]. split; [lia|].
  split; [apply Hprev|]. split; [apply Hnext|].
  intros Hnp.
  assert (l = r).
  { destruct (Nat.eq_dec l r) as [E|E]; [exact E|]. exfalso.
    apply (Hnp l); [lia|].
    rewrite (Hflat (l + 1)) by lia. reflexivity. }
  subst r. assert (s = l) by lia.
  split; [apply Hprev | apply Hnext]; assumption.
Qed.

(** C3, as the code has it.  Every reported spike lies strictly inside the
    signal, its sample is inside the band, and it is the middle (rounded
    down) of a flat top whose outer neighbours are strictly lower; so no
    neighbour of the spike is higher, and both are strictly lower when the
    signal has no two equal neighbouring samples.  The spikes are strictly
    ascending, without duplicates, and never the first or the last index. *)
Theorem find_peaks_flat_top_maxima (signal : list Q) (ratio : Q) (est : estimate) :
  threshold_estimator signal ratio = inr est ->
  let spikes := find_peaks signal (min_height est) (max_height est) in
  (forall s, In s spikes ->
     0 < s /\ s < length signal - 1 /\
     (min_height est <= at_index signal s)%Q /\
     (at_index signal s <= max_height est)%Q /\
     (exists l r, flat_peak signal l r /\ s = (l + r) / 2) /\
     (at_index signal (s - 1) <= at_index signal s)%Q /\
     (at_index signal (s + 1) <= at_index signal s)%Q /\
     (no_plateau signal -> strict_local_max signal s)) /\
  StronglySorted lt spikes /\ List.NoDup spikes /\
  ~ In 0 spikes /\ ~ In (length signal - 1) spikes.
Proof.
  intros _ spikes.
  assert (Hall : forall s, In s spikes ->
     0 < s /\ s < length signal - 1 /\
     (min_height est <= at_index signal s)%Q /\
     (at_index signal s <= max_height est)%Q /\
     (exists l r, flat_peak signal l r /\ s = (l + r) / 2) /\
     (at_index signal (s - 1) <= at_index signal s)%Q /\
     (at_index signal (s + 1) <= at_index signal s)%Q /\
     (no_plateau signal -> strict_local_max signal s)).
  { intros s Hs. apply find_peaks_in in Hs as (Hlo & Hhi & l & r & Hp & ->).
    destruct (flat_peak_middle signal l r Hp) as (H1 & H2 & H3 & H4 & H5).
    repeat (split; [assumption|]).
    split; [now exists l, r|]. repeat (split; [assumption|]). exact H5. }
  split; [exact Hall|].
  split; [apply find_peaks_sorted|].
  split; [apply StronglySorted_lt_NoDup, find_peaks_sorted|].
  split; intros Hin; apply Hall in Hin; lia.
Qed.

Lemma find_peaks_flat_top_maxima_witness :
  let signal := [0; 2; 5; 2; 0; 12; 0]%Q in
  exists est, threshold_estimator signal (3 # 10) = inr est /\
              In 2 (find_peaks signal (min_height est) (max_height est)) /\
              strict_local_max signal 2.
Proof.
  intros signal.
  exists {| max_amplitude := 12; threshold := (3 # 10) * 12;
            min_height := band_min 12; max_height := band_max 12 |}.
  split; [reflexivity|].
  assert (Hin : In 2 (find_peaks signal (band_min 12) (band_max 12)))
    by (vm_compute; left; reflexivity).
  split; [exact Hin|].
  refine (proj2 (proj2 (proj2 (proj2 (proj2 (proj2 (proj2
    (proj1 (find_peaks_flat_top_maxima signal (3 # 10) _ eq_refl) 2 Hin))))))) _).
  intros i Hi.
  assert (Hi' : i < 6) by (unfold signal in Hi; simpl in Hi; lia).
  do 6 (destruct i as [|i]; [vm_compute; discriminate|]).
  exfalso. clear -Hi'. lia.
Defined.

(** C3 as written fails on a flat top: in [0, 5, 5, 0, 12, 0] the band is
    [4, 6], index 1 is reported, and its right neighbour is as high. *)
Lemma strict_local_max_counterexample :
  let signal := [0; 5; 5; 0; 12; 0]%Q in
  exists est, threshold_estimator signal (3 # 10) = inr est /\
              find_peaks signal (min_height est) (max_height est) = [1] /\
              ~ strict_local_max signal 1.
Proof.
  intros signal. eexists. split; [reflexivity|]. split; [reflexivity|].
  intros [_ H]. vm_compute in H. discriminate.
Qed.

(** ** The waveform extractor *)

Lemma py_int_floor (q : Q) : (0 <= q)%Q -> py_int q = Qfloor q /\ (0 <= py_int q)%Z.
Proof.
  destruct q as [n d]. unfold Qle, py_int, Qfloor. simpl. intros H.
  assert (0 <= n)%Z by lia.
  split; [apply Z.quot_div_nonneg; lia | apply Z.quot_pos; lia].
Qed.

Lemma to_samples_floor (t sample_rate : Q) :
  (0 <= t)%Q -> (0 <= sample_rate)%Q ->
  to_samples t sample_rate = Qfloor (t / 1000 * sample_rate) /\
  (0 <= to_samples t sample_rate)%Z.
Proof.
  intros Ht Hr. unfold to_samples. apply py_int_floor.
  apply Qmult_le_0_compat; [|exact Hr].
  unfold Qdiv. apply Qmult_le_0_compat; [exact Ht | discriminate].
Qed.

Lemma extract_fold (signal : list Q) (pre post : Z) (spikes : list nat)
    (acc : list (list Q)) :
  fold_left (extract_step signal pre post) spikes acc =
  acc ++ map (fun s => py_slice signal (window_start s pre) (window_end signal s post))
             (List.filter (window_fits signal pre post) spikes).
Proof.
  revert acc. induction spikes as [|s spikes IH]; intros acc; simpl.
  - now rewrite app_nil_r.
  - rewrite IH. unfold extract_step, window_fits.
    destruct (_ =? _)%Z; [|reflexivity].
    simpl. now rewrite <- app_assoc.
Qed.

Lemma window_fits_iff (signal : list Q) (pre post : Z) (s : nat) :
  window_fits signal pre post s = true <->
  (pre <= Z.of_nat s /\ Z.of_nat s + post <= Z.of_nat (length signal))%Z.
Proof.
  unfold window_fits, window_start, window_end. rewrite Z.eqb_eq. lia.
Qed.

Lemma py_slice_inside {A} (l : list A) (a b : Z) :
  (0 <= a)%Z -> (0 <= b)%Z -> (b <= Z.of_nat (length l))%Z ->
  py_slice l a b = firstn (Z.to_nat (b - a)) (skipn (Z.to_nat a) l).
Proof.
  intros Ha Hb Hbn. unfold py_slice, slice_bound.
  destruct (a <? 0)%Z eqn:Ea; [apply Z.ltb_lt in Ea; lia|].
  destruct (b <? 0)%Z eqn:Eb; [apply Z.ltb_lt in Eb; lia|].
  rewrite (Z.min_l b) by lia.
  destruct (Z.le_gt_cases a (Z.of_nat (length l))) as [H|H].
  - now rewrite Z.min_l by lia.
  - rewrite Z.min_r by lia.
    rewrite !skipn_all2 by lia. now rewrite !firstn_nil.
Qed.

Lemma window_length (signal : list Q) (pre post : Z) (s : nat) :
  (0 <= pre + post)%Z ->
  window_fits signal pre post s = true ->
  Z.of_nat (length (window_samples signal pre post s)) = (pre + post)%Z.
Proof.
  intros Hsum Hfit. apply window_fits_iff in Hfit as [H1 H2].
  unfold window_samples, window_start, window_end.
  rewrite Z.max_r by lia. rewrite Z.min_r by lia.
  rewrite length_firstn, length_skipn. lia.
Qed.

Lemma window_slice (signal : list Q) (pre post : Z) (s : nat) :
  (0 <= post)%Z ->
  py_slice signal (window_start s pre) (window_end signal s post) =
  window_samples signal pre post s.
Proof.
  intros Hpost. unfold window_samples.
  apply py_slice_inside; unfold window_start, window_end; lia.
Qed.

Lemma extract_waveforms_windows (signal : list Q) (spikes : list nat) (pre post : Z) :
  (0 <= post)%Z ->
  extract_waveforms signal spikes pre post =
  map (window_samples signal pre post)
      (List.filter (window_fits signal pre post) spikes).
Proof.
  intros Hpost. unfold extract_waveforms. rewrite extract_fold. simpl.
  apply map_ext. intros s. now apply window_slice.
Qed.

Lemma np_array_uniform (rows : list (list Q)) (w : nat) :
  List.Forall (fun row => length row = w) rows -> np_array rows = inr rows.
Proof.
  intros H. destruct rows as [|r rs]; [reflexivity|]. simpl.
  inversion H as [|? ? Hr Hrs]; subst.
  replace (forallb _ rs) with true; [reflexivity|].
  symmetry. apply forallb_forall. intros r' Hr'.
  rewrite List.Forall_forall in Hrs. apply Nat.eqb_eq. now apply Hrs.
Qed.

Lemma filter_all (f : nat -> bool) (l : list nat) :
  List.Forall (fun a => f a = true) l -> List.filter f l = l.
Proof.
  induction 1 as [|a l Ha _ IH]; simpl; [reflexivity|].
  now rewrite Ha, IH.
Qed.

(** C5, as the code has it.  When [pre + post <= 0] (with [post] not
    negative) an unclipped window has length [pre + post] too, so it is
    kept: every row of the matrix is empty, and there is one row for each
    spike with [s + post <= N], which is one row per spike when all spikes
    lie that far inside the signal. *)
Theorem extract_waveforms_empty_window (signal : list Q) (spikes : list nat)
    (pre_samples post_samples : Z) :
  (pre_samples + post_samples <= 0)%Z -> (0 <= post_samples)%Z ->
  let rows := extract_waveforms signal spikes pre_samples post_samples in
  List.Forall (fun row => row = []) rows /\
  length rows =
    length (List.filter
              (fun s => (Z.of_nat s + post_samples <=? Z.of_nat (length signal))%Z)
              spikes) /\
  (List.Forall (fun s => (Z.of_nat s + post_samples <= Z.of_nat (length signal))%Z)
     spikes -> length rows = length spikes).
Proof.
  intros Hsum Hpost rows.
  assert (Hrows : rows = map (window_samples signal pre_samples post_samples)
             (List.filter (window_fits signal pre_samples post_samples) spikes))
    by (apply extract_waveforms_windows; exact Hpost).
  assert (Hfilter :
    List.filter (window_fits signal pre_samples post_samples) spikes =
    List.filter (fun s => (Z.of_nat s + post_samples <=? Z.of_nat (length signal))%Z)
                spikes).
  { apply filter_ext. intros s.
    destruct (Z.of_nat s + post_samples <=? Z.of_nat (length signal))%Z eqn:E.
    - apply window_fits_iff. apply Z.leb_le in E. lia.
    - destruct (window_fits signal pre_samples post_samples s) eqn:F; [|reflexivity].
      apply window_fits_iff in F. apply Z.leb_gt in E. lia. }
  split; [|split].
  - rewrite Hrows. apply List.Forall_forall. intros row Hrow.
    apply in_map_iff in Hrow as (s & <- & Hs). apply filter_In in Hs as [_ Hs].
    unfold window_fits in Hs. apply Z.eqb_eq in Hs.
    unfold window_samples. rewrite Hs.
    replace (Z.to_nat (pre_samples + post_samples)) with 0 by lia. reflexivity.
  - rewrite Hrows, length_map, Hfilter. reflexivity.
  - intros Hall. rewrite Hrows, length_map, Hfilter. f_equal.
    apply filter_all. eapply List.Forall_impl; [|exact Hall].
    simpl. intros s Hs. now apply Z.leb_le.
Qed.

Lemma extract_waveforms_empty_window_witness :
  extract_waveforms [0; 5; 0; 12; 0]%Q [1] 0 0 = [[]].
Proof.
  destruct (extract_waveforms_empty_window [0; 5; 0; 12; 0]%Q [1] 0 0)
    as (Hempty & _ & Hlen); [lia | lia |].
  specialize (Hlen ltac:(repeat constructor; simpl; lia)).
  destruct (extract_waveforms [0; 5; 0; 12; 0]%Q [1] 0 0) as [|row [|row' rest]];
    [discriminate Hlen | | discriminate Hlen].
  inversion Hempty as [|? ? Hrow _]; subst. reflexivity.
Defined.

(** C5 as written fails when both counts are zero: the spike at index 1 of
    [0, 5, 0, 12, 0] passes the length test and leaves a row. *)
Lemma zero_rows_counterexample :
  let signal := [0; 5; 0; 12; 0]%Q in
  let pre_samples := to_samples 0 30000 in
  let post_samples := to_samples 0 30000 in
  exists est, threshold_estimator signal (3 # 10) = inr est /\
    find_peaks signal (min_height est) (max_height est) = [1] /\
    (pre_samples + post_samples <= 0)%Z /\
    length (extract_waveforms signal
              (find_peaks signal (min_height est) (max_height est))
              pre_samples post_samples) = 1 /\
    length (extract_waveforms signal
              (find_peaks signal (min_height est) (max_height est))
              pre_samples post_samples) <> 0.
Proof.
  intros signal pre_samples post_samples. eexists.
  split; [reflexivity|]. split; [reflexivity|].
  split; [vm_compute; discriminate|].
  split; [reflexivity | vm_compute; discriminate].
Qed.

(** ** The pipeline *)

Section PipelineFacts.

Variable random_state : Type.
Variable svd_solve :
  random_state -> Z -> list (list Q) -> list (list Q) * list Q.

Local Abbreviation fit := (fit_transform random_state svd_solve).
Local Abbreviation analyze_ := (analyze random_state svd_solve).
Local Abbreviation pipeline := (extract_analyze_and_plot_spikes random_state svd_solve).

(** The run of lines 82 to 117 read stage by stage. *)
Lemma analyze_stages (rs : random_state) (signal : list Q) (time : pyval)
    (sample_rate ratio pre_time post_time : Q) (n : Z) :
  analyze_ rs signal time sample_rate ratio pre_time post_time n =
  match np_max signal with
  | inl e => ([], inl e)
  | inr m =>
      let pre := to_samples pre_time sample_rate in
      let post := to_samples post_time sample_rate in
      let spikes := find_peaks signal (band_min m) (band_max m) in
      let printed := [Print_threshold (ratio * m)%Q ratio m;
                      Print_detected (length spikes) (band_min m) (band_max m)] in
      match np_linspace (- pre_time) post_time (pre + post) with
      | inl e => (printed, inl e)
      | inr aligned_time =>
          match np_array (extract_waveforms signal spikes pre post) with
          | inl e => (printed, inl e)
          | inr X =>
              match fit rs n X with
              | inl e => (printed, inl e)
              | inr fitted =>
                  (printed ++ [Print_explained (explained_variance_ratio_ (snd fitted))],
                   inr (Some {| out_signal := signal;
                                out_time := time;
                                out_aligned_time := aligned_time;
                                out_spike_waveforms := X;
                                out_spikes := spikes;
                                out_spike_features := fst fitted;
                                out_pca := snd fitted |}))
              end
          end
      end
  end.
Proof.
  unfold analyze, threshold_estimator.
  destruct (np_max signal) as [e|m]; [reflexivity|]. cbn -[find_peaks].
  destruct (np_linspace _ _ _) as [e|aligned_time]; [reflexivity|].
  cbn -[find_peaks].
  destruct (np_array _) as [e|X]; [reflexivity|]. cbn -[find_peaks].
  destruct (fit rs n X) as [e|fitted]; reflexivity.
Qed.

Lemma bind_lift_inr {A B} (a : A) (k : A -> M B) : bind (lift (inr a)) k = k a.
Proof. unfold bind, lift. destruct (k a) as [out r]. reflexivity. Qed.

Lemma bind_lift_inl {A B} (e : exn) (k : A -> M B) :
  bind (lift (inl e)) k = ([], inl e).
Proof. reflexivity. Qed.

(** The function once both keys are found. *)
Lemma pipeline_guard_passed (rs : random_state) (result : gmap string pyval)
    (c : Z) (ratio pre_time post_time : Q) (n : Z) (amp time : pyval) :
  result !! "amplifier_data" = Some amp ->
  result !! "t_amplifier" = Some time ->
  pipeline rs result c ratio pre_time post_time n =
  match select_channel amp c with
  | inl e => ([], inl e)
  | inr signal =>
      match result !! "sample_rate" with
      | None => ([], inl (KeyError "sample_rate"))
      | Some PyNone => ([], inl (ValueError Sample_rate_not_found))
      | Some (PyNum sample_rate) =>
          match signal with
          | inl row => analyze_ rs row time sample_rate ratio pre_time post_time n
          | inr sample =>
              ([Print_threshold (ratio * sample)%Q ratio sample],
               inl (ValueError X_not_1d))
          end
      | Some (PyVec _) | Some (PyMat _) => ([], inl TypeError)
      end
  end.
Proof.
  intros Hamp Htime. unfold extract_analyze_and_plot_spikes.
  rewrite Hamp, Htime.
  destruct (select_channel amp c) as [e|signal]; [reflexivity|].
  rewrite bind_lift_inr.
  destruct (result !! "sample_rate") as [[| sr | v | rows]|]; reflexivity.
Qed.

Lemma pipeline_guard_failed (rs : random_state) (result : gmap string pyval)
    (c : Z) (ratio pre_time post_time : Q) (n : Z) :
  result !! "amplifier_data" = None \/ result !! "t_amplifier" = None ->
  pipeline rs result c ratio pre_time post_time n = ([Print_not_found], inr None).
Proof.
  intros H. unfold extract_analyze_and_plot_spikes.
  destruct H as [-> | ->]; [reflexivity|].
  destruct (result !! "amplifier_data"); reflexivity.
Qed.

(** The ratio reaches nothing but the first printed line. *)
Lemma analyze_ratio (rs : random_state) (signal : list Q) (time : pyval)
    (sample_rate r1 r2 pre_time post_time : Q) (n : Z) :
  snd (analyze_ rs signal time sample_rate r1 pre_time post_time n) =
  snd (analyze_ rs signal time sample_rate r2 pre_time post_time n) /\
  map hide_threshold (fst (analyze_ rs signal time sample_rate r1 pre_time post_time n)) =
  map hide_threshold (fst (analyze_ rs signal time sample_rate r2 pre_time post_time n)).
Proof.
  rewrite !analyze_stages.
  destruct (np_max signal) as [e|m]; [split; reflexivity|]. cbv zeta.
  destruct (np_linspace _ _ _) as [e|aligned]; [split; reflexivity|].
  destruct (np_array _) as [e|X]; [split; reflexivity|].
  destruct (fit rs n X) as [e|fitted]; split; reflexivity.
Qed.

(** C2.  Two runs that differ only in [threshold_ratio] end alike: the same
    exception, or the same returned tuple, hence the same spikes, waveforms,
    features and explained variance ratios.  They print the same lines up to
    the threshold and ratio shown in the first one, and a printed threshold
    is the ratio of its run times the maximal amplitude. *)
Theorem threshold_ratio_only_reported (rs : random_state)
    (result : gmap string pyval) (channel_index : Z)
    (r1 r2 pre_time post_time : Q) (n_components : Z) :
  let run r := pipeline rs result channel_index r pre_time post_time n_components in
  snd (run r1) = snd (run r2) /\
  map hide_threshold (fst (run r1)) = map hide_threshold (fst (run r2)) /\
  forall t r m, In (Print_threshold t r m) (fst (run r1)) ->
                r = r1 /\ t = (r1 * m)%Q.
Proof.
  intros run. unfold run.
  destruct (result !! "amplifier_data") as [amp|] eqn:Hamp.
  2: { rewrite !pipeline_guard_failed by (left; exact Hamp).
       repeat split; try reflexivity; simpl in *; intuition discriminate. }
  destruct (result !! "t_amplifier") as [time|] eqn:Htime.
  2: { rewrite !pipeline_guard_failed by (right; exact Htime).
       repeat split; try reflexivity; simpl in *; intuition discriminate. }
  rewrite !(pipeline_guard_passed rs result channel_index _ _ _ _ amp time Hamp Htime).
  destruct (select_channel amp channel_index) as [e|[row|sample]].
  - repeat split; try reflexivity; simpl in *; contradiction.
  - destruct (result !! "sample_rate") as [[| sr | v | rows]|];
      try (repeat split; try reflexivity; simpl in *; contradiction).
    destruct (analyze_ratio rs row time sr r1 r2 pre_time post_time n_components)
      as [Hres Hout].
    split; [exact Hres|]. split; [exact Hout|].
    intros t r m. rewrite analyze_stages.
    destruct (np_max row) as [e|mx]; [simpl; contradiction|]. cbv zeta.
    destruct (np_linspace _ _ _) as [e|aligned].
    { simpl. intros [H|[H|[]]]; [|discriminate]. injection H as <- <- <-. auto. }
    destruct (np_array _) as [e|X].
    { simpl. intros [H|[H|[]]]; [|discriminate]. injection H as <- <- <-. auto. }
    destruct (fit rs n_components X) as [e|fitted].
    { simpl. intros [H|[H|[]]]; [|discriminate]. injection H as <- <- <-. auto. }
    simpl. intros [H|[H|[H|[]]]]; [|discriminate|discriminate].
    injection H as <- <- <-. auto.
  - destruct (result !! "sample_rate") as [[| sr | v | rows]|];
      try (repeat split; try reflexivity; simpl in *; contradiction).
    repeat split; try reflexivity; simpl in *;
      destruct H as [H|[]]; injection H as <- <- <-; reflexivity.
Qed.

Lemma analyze_time (rs : random_state) (signal : list Q) (t1 t2 : pyval)
    (sample_rate ratio pre_time post_time : Q) (n : Z) :
  analyze_ rs signal t2 sample_rate ratio pre_time post_time n =
  map_output (set_time t2)
    (analyze_ rs signal t1 sample_rate ratio pre_time post_time n).
Proof.
  rewrite !analyze_stages.
  destruct (np_max signal) as [e|m]; [reflexivity|]. cbv zeta.
  destruct (np_linspace _ _ _) as [e|aligned]; [reflexivity|].
  destruct (np_array _) as [e|X]; [reflexivity|].
  destruct (fit rs n X) as [e|fitted]; reflexivity.
Qed.

(** C10.  Put any two objects under ["t_amplifier"]: the second run prints
    what the first prints and ends as the first does, with the same
    exception or with the same tuple in which only the [time] entry is
    replaced; and the [time] entry of a run is the object it was given. *)
Theorem time_vector_passes_through (rs : random_state)
    (d : gmap string pyval) (channel_index : Z)
    (ratio pre_time post_time : Q) (n_components : Z) (t1 t2 : pyval) :
  let run t := pipeline rs (<["t_amplifier" := t]> d) channel_index ratio
                        pre_time post_time n_components in
  run t2 = map_output (set_time t2) (run t1) /\
  run t1 = map_output (set_time t1) (run t1).
Proof.
  intros run.
  assert (Hgen : forall t t', run t' = map_output (set_time t') (run t)).
  { intros t t'. unfold run.
    destruct (d !! "amplifier_data") as [amp|] eqn:Hamp.
    - rewrite (pipeline_guard_passed rs (<["t_amplifier" := t']> d) channel_index
                 ratio pre_time post_time n_components amp t');
        [| rewrite lookup_insert_ne by done; exact Hamp | apply lookup_insert_eq].
      rewrite (pipeline_guard_passed rs (<["t_amplifier" := t]> d) channel_index
                 ratio pre_time post_time n_components amp t);
        [| rewrite lookup_insert_ne by done; exact Hamp | apply lookup_insert_eq].
      rewrite !(lookup_insert_ne d "t_amplifier" "sample_rate") by done.
      destruct (select_channel amp channel_index) as [e|[row|sample]];
        [reflexivity | | ].
      + destruct (d !! "sample_rate") as [[| sr | v | rows]|]; try reflexivity.
        apply analyze_time.
      + destruct (d !! "sample_rate") as [[| sr | v | rows]|]; reflexivity.
    - rewrite !pipeline_guard_failed;
        [reflexivity | left | left]; rewrite lookup_insert_ne by done; exact Hamp. }
  split; apply Hgen.
Qed.

(** C8.  An empty signal stops the estimator with the [ValueError] of
    [np.max]; the run ends there, with nothing printed: no threshold, no
    band, no later stage. *)
Theorem empty_signal_invalid_input (rs : random_state)
    (result : gmap string pyval) (channel_index : Z)
    (ratio pre_time post_time : Q) (n_components : Z)
    (amp time : pyval) (sample_rate : Q) :
  result !! "amplifier_data" = Some amp ->
  result !! "t_amplifier" = Some time ->
  select_channel amp channel_index = inr (inl []) ->
  result !! "sample_rate" = Some (PyNum sample_rate) ->
  threshold_estimator [] ratio = inl (ValueError Zero_size_max) /\
  pipeline rs result channel_index ratio pre_time post_time n_components =
  ([], inl (ValueError Zero_size_max)).
Proof.
  intros Hamp Htime Hsel Hrate. split; [reflexivity|].
  rewrite (pipeline_guard_passed rs result channel_index _ _ _ _ amp time Hamp Htime).
  rewrite Hsel, Hrate, analyze_stages. reflexivity.
Qed.

(** C9, as the code has it.  Without ["amplifier_data"] or ["t_amplifier"]
    the function raises nothing: it prints its notice and returns [None].
    With both keys, a channel that cannot be selected raises the error of
    the selection (an [IndexError] for an index outside the table) before
    the sample rate is looked at.  With both keys and the channel selected,
    a missing ["sample_rate"] key raises [KeyError] and a [None] sample rate
    raises [ValueError].  In all these cases no line of a detection stage is
    printed. *)
Theorem missing_precondition (rs : random_state)
    (result : gmap string pyval) (channel_index : Z)
    (ratio pre_time post_time : Q) (n_components : Z) :
  let run := pipeline rs result channel_index ratio pre_time post_time
                      n_components in
  (result !! "amplifier_data" = None \/ result !! "t_amplifier" = None ->
   run = ([Print_not_found], inr None)) /\
  (forall amp time,
     result !! "amplifier_data" = Some amp ->
     result !! "t_amplifier" = Some time ->
     (forall e, select_channel amp channel_index = inl e -> run = ([], inl e)) /\
     (forall rows,
        amp = PyMat rows ->
        (channel_index < - Z.of_nat (length rows) \/
         Z.of_nat (length rows) <= channel_index)%Z ->
        run = ([], inl IndexError)) /\
     (forall signal,
        select_channel amp channel_index = inr signal ->
        (result !! "sample_rate" = None ->
         run = ([], inl (KeyError "sample_rate"))) /\
        (result !! "sample_rate" = Some PyNone ->
         run = ([], inl (ValueError Sample_rate_not_found))))).
Proof.
  intros run. split.
  - apply pipeline_guard_failed.
  - intros amp time Hamp Htime. unfold run.
    rewrite (pipeline_guard_passed rs result channel_index _ _ _ _ amp time Hamp Htime).
    split; [intros e ->; reflexivity|]. split.
    + intros rows -> Hout. unfold select_channel, py_index.
      destruct (channel_index <? 0)%Z eqn:Eneg; cbv iota.
      * assert (Hneg : (channel_index < 0)%Z) by (apply Z.ltb_lt; exact Eneg).
        destruct Hout as [Hout|Hout]; [|lia].
        replace (channel_index + Z.of_nat (length rows) <? 0)%Z with true
          by (symmetry; apply Z.ltb_lt; lia).
        reflexivity.
      * rewrite Eneg.
        assert (Hpos : (0 <= channel_index)%Z) by (apply Z.ltb_ge; exact Eneg).
        destruct Hout as [Hout|Hout]; [lia|].
        replace (Z.of_nat (length rows) <=? channel_index)%Z with true
          by (symmetry; apply Z.leb_le; lia).
        reflexivity.
    + intros signal ->. split; intros ->; reflexivity.
Qed.


(** What a returned tuple holds: the spikes of the band of the signal's
    maximum, and their windows. *)
Lemma analyze_returns (rs : random_state) (signal : list Q) (time : pyval)
    (sample_rate ratio pre_time post_time : Q) (n : Z)
    (printed : list event) (o : output) :
  analyze_ rs signal time sample_rate ratio pre_time post_time n
  = (printed, inr (Some o)) ->
  exists est,
    threshold_estimator signal ratio = inr est /\
    out_signal o = signal /\
    out_spikes o = find_peaks signal (min_height est) (max_height est) /\
    out_spike_waveforms o =
      extract_waveforms signal (out_spikes o)
        (to_samples pre_time sample_rate) (to_samples post_time sample_rate) /\
    fit rs n (out_spike_waveforms o) = inr (out_spike_features o, out_pca o).
Proof.
  rewrite analyze_stages. unfold threshold_estimator.
  destruct (np_max signal) as [e|m]; [discriminate|]. cbv zeta.
  destruct (np_linspace _ _ _) as [e|aligned]; [discriminate|].
  destruct (np_array _) as [e|X] eqn:Harr; [discriminate|].
  destruct (fit rs n X) as [e|[features fitted]] eqn:Hfit; [discriminate|].
  intros H. injection H as _ <-. eexists. split; [reflexivity|]. simpl.
  repeat split; [|exact Hfit].
  destruct (extract_waveforms _ _ _ _) as [|r rs'] eqn:E; simpl in Harr.
  - now injection Harr as <-.
  - destruct (forallb _ rs'); [now injection Harr as <- | discriminate].
Qed.

End PipelineFacts.

(** ** Runs on concrete recordings *)

Lemma empty_signal_invalid_input_witness :
  extract_analyze_and_plot_spikes unit (fun _ _ _ => ([], [])) tt
    (<["amplifier_data" := PyMat [[]]]>
       (<["t_amplifier" := PyVec []]> (<["sample_rate" := PyNum 30000]> ∅)))
    0 (3 # 10) 1 2 2
  = ([], inl (ValueError Zero_size_max)).
Proof.
  apply (empty_signal_invalid_input unit (fun _ _ _ => ([], [])) tt _ 0 (3 # 10) 1 2 2
           (PyMat [[]]) (PyVec []) 30000); reflexivity.
Defined.

Lemma missing_precondition_witness :
  extract_analyze_and_plot_spikes unit (fun _ _ _ => ([], [])) tt
    (<["amplifier_data" := PyMat [[0; 5; 0]%Q]]> (<["t_amplifier" := PyVec []]> ∅))
    0 (3 # 10) 1 2 2
  = ([], inl (KeyError "sample_rate")).
Proof.
  refine (proj1 (proj2 (proj2 (proj2 (missing_precondition unit
            (fun _ _ _ => ([], [])) tt _ 0 (3 # 10) 1 2 2)
            (PyMat [[0; 5; 0]%Q]) (PyVec []) _ _)) (inl [0; 5; 0]%Q) _) _);
    reflexivity.
Defined.

(** C9 as written fails when a key is missing: the run ends with the bare
    [return], not with an exception. *)
Lemma missing_key_counterexample :
  let run := extract_analyze_and_plot_spikes unit (fun _ _ _ => ([], [])) tt
               (<["sample_rate" := PyNum 30000]> ∅) 0 (3 # 10) 1 2 2 in
  run = ([Print_not_found], inr None) /\ forall e, snd run <> inl e.
Proof.
  split; [reflexivity | intros e; discriminate].
Qed.

(** Scenario A of the design: the band of [0,1,5,1,0,0,1,6,1,0] is [2, 3],
    no peak falls inside it, and the reducer refuses the empty matrix. *)
Example scenario_a_run :
  extract_analyze_and_plot_spikes unit (fun _ _ _ => ([], [])) tt
    (<["amplifier_data" := PyMat [[0; 1; 5; 1; 0; 0; 1; 6; 1; 0]%Q]]>
       (<["t_amplifier" := PyVec []]> (<["sample_rate" := PyNum 1000]> ∅)))
    0 (3 # 10) 1 2 2
  = ([Print_threshold ((3 # 10) * 6) (3 # 10) 6;
      Print_detected 0 (band_min 6) (band_max 6)],
     inl (ValueError Pca_not_2d)).
Proof. reflexivity. Qed.

(** Both counts zero: the spike is kept as an empty row and the reducer
    refuses a matrix without columns. *)
Example zero_window_run :
  extract_analyze_and_plot_spikes unit (fun _ _ _ => ([], [])) tt
    (<["amplifier_data" := PyMat [[0; 5; 0; 12; 0]%Q]]>
       (<["t_amplifier" := PyVec []]> (<["sample_rate" := PyNum 30000]> ∅)))
    0 (3 # 10) 0 0 1
  = ([Print_threshold ((3 # 10) * 12) (3 # 10) 12;
      Print_detected 1 (band_min 12) (band_max 12)],
     inl (ValueError Pca_no_feature)).
Proof. reflexivity. Qed.

(** ** The peak detector misses no flat top *)

(** From inside a flat top the inner loop walks to the sample after it. *)
Lemma look_ahead_reaches (x : list Q) (xi : Q) (i_max r fuel j : nat) :
  j <= r + 1 -> r + 1 - j <= fuel -> r < i_max ->
  (forall t, j <= t <= r -> (at_index x t == xi)%Q) ->
  ~ (at_index x (r + 1) == xi)%Q ->
  look_ahead x xi i_max fuel j = r + 1.
Proof.
  revert j. induction fuel as [|fuel IH]; intros j Hj Hfuel Hr Hflat Hstop.
  - simpl. lia.
  - simpl. destruct (Nat.eq_dec j (r + 1)) as [->|Hne].
    + replace (Qeq_bool (at_index x (r + 1)) xi) with false.
      * now rewrite andb_false_r.
      * symmetry. apply not_true_is_false. intros H.
        apply Qeq_bool_iff in H. contradiction.
    + replace (j <? i_max) with true by (symmetry; apply Nat.ltb_lt; lia).
      replace (Qeq_bool (at_index x j) xi) with true
        by (symmetry; apply Qeq_bool_iff, Hflat; lia).
      simpl. apply IH; try lia; [|exact Hstop].
      intros t Ht. apply Hflat. lia.
Qed.

Lemma local_maxima_from_complete (x : list Q) (l r fuel i : nat) :
  flat_peak x l r ->
  1 <= i -> i <= l -> length x - 1 - i <= fuel ->
  In ((l + r) / 2) (local_maxima_from x (length x - 1) fuel i).
Proof.
  intros Hp. pose proof Hp as (Hl & Hlr & Hr & Hleft & Hflat & Hright).
  revert i. induction fuel as [|fuel IH]; intros i Hi Hil Hfuel; [lia|].
  cbn [local_maxima_from].
  replace (i <? length x - 1) with true by (symmetry; apply Nat.ltb_lt; lia).
  destruct (Nat.eq_dec i l) as [->|Hne].
  - replace (Qlt_bool (at_index x (l - 1)) (at_index x l)) with true
      by (symmetry; now apply Qlt_bool_iff).
    rewrite (look_ahead_reaches x (at_index x l) (length x - 1) r); try lia.
    + replace (Qlt_bool (at_index x (r + 1)) (at_index x l)) with true
        by (symmetry; now apply Qlt_bool_iff).
      left. f_equal. lia.
    + intros t Ht. apply Hflat. lia.
    + apply Qlt_not_eq. exact Hright.
  - destruct (Qlt_bool (at_index x (i - 1)) (at_index x i)) eqn:Hup;
      [|apply IH; lia].
    destruct (look_ahead_spec x (at_index x i) (length x - 1)
                (length x - 1 - i) (i + 1)) as (K1 & K2 & K3).
    set (k := look_ahead x (at_index x i) (length x - 1)
                (length x - 1 - i) (i + 1)) in *.
    destruct (Qlt_bool (at_index x k) (at_index x i)) eqn:Hdown;
      [|apply IH; lia].
    right. apply IH; try lia.
    apply Qlt_bool_iff in Hdown.
    assert (Hrun : forall t, i <= t < k -> (at_index x t == at_index x i)%Q).
    { intros t Ht. destruct (Nat.eq_dec t i) as [->|]; [reflexivity|].
      apply K3. lia. }
    destruct (Nat.le_gt_cases (k + 1) l) as [Hk|Hk]; [exact Hk|]. exfalso.
    destruct (Nat.eq_dec l k) as [->|Hlk].
    + (* the sample after the run is lower, so no flat top starts there *)
      apply (Qlt_irrefl (at_index x k)).
      eapply Qlt_trans; [exact Hdown|].
      rewrite <- (Hrun (k - 1)) by lia. exact Hleft.
    + (* inside the run a sample equals its left neighbour *)
      apply (Qlt_not_eq _ _ Hleft).
      rewrite (Hrun (l - 1)) by lia. rewrite (Hrun l) by lia. reflexivity.
Qed.

(** The reported indices are exactly the middles of the flat tops whose
    height lies in the band: none is made up and none is missed. *)
Theorem find_peaks_exact (x : list Q) (lo hi : Q) (s : nat) :
  In s (find_peaks x lo hi) <->
  (lo <= at_index x s)%Q /\ (at_index x s <= hi)%Q /\
  exists l r, flat_peak x l r /\ s = (l + r) / 2.
Proof.
  split; [apply find_peaks_in|].
  intros (Hlo & Hhi & l & r & Hp & ->).
  unfold find_peaks. apply filter_In. split.
  - unfold local_maxima_1d. destruct Hp as (Hl & Hlr & Hr & Hrest).
    apply local_maxima_from_complete; [repeat split; tauto | lia | lia | lia].
  - unfold select_by_height. apply andb_true_iff.
    split; now apply Qle_bool_iff.
Qed.

(** ** What the fixed band lets through *)

Lemma estimator_fields (signal : list Q) (ratio : Q) (est : estimate) :
  threshold_estimator signal ratio = inr est ->
  np_max signal = inr (max_amplitude est) /\
  min_height est = band_min (max_amplitude est) /\
  max_height est = band_max (max_amplitude est).
Proof.
  unfold threshold_estimator. destruct (np_max signal) as [e|m]; [discriminate|].
  intros H. injection H as <-. simpl. auto.
Qed.

(** With a positive maximum the band is [max/3 < max/2]: every spike is a
    positive sample strictly below the maximum, so the highest sample of the
    recording is never among the spikes. *)
Theorem spikes_below_maximum (signal : list Q) (ratio : Q) (est : estimate) :
  threshold_estimator signal ratio = inr est ->
  (0 < max_amplitude est)%Q ->
  (min_height est < max_height est)%Q /\
  forall s, In s (find_peaks signal (min_height est) (max_height est)) ->
    (0 < at_index signal s)%Q /\
    (at_index signal s < max_amplitude est)%Q /\
    np_max signal <> inr (at_index signal s).
Proof.
  intros Hest Hpos. destruct (estimator_fields _ _ _ Hest) as (Hmax & -> & ->).
  unfold band_min, band_max.
  change (1 / 3)%Q with (1 # 3)%Q. change (1 / 2)%Q with (1 # 2)%Q.
  split; [lra|]. intros s Hs. apply find_peaks_in in Hs as (Hlo & Hhi & _).
  assert (Hlt : (at_index signal s < max_amplitude est)%Q) by lra.
  split; [lra|]. split; [exact Hlt|].
  rewrite Hmax. intros H. injection H as H. rewrite <- H in Hlt.
  exact (Qlt_irrefl _ Hlt).
Qed.

Lemma spikes_below_maximum_witness :
  let signal := [0; 2; 5; 2; 0; 12; 0]%Q in
  In 2 (find_peaks signal (band_min 12) (band_max 12)) /\
  (at_index signal 2 < 12)%Q.
Proof.
  intros signal.
  assert (Hin : In 2 (find_peaks signal (band_min 12) (band_max 12)))
    by (vm_compute; left; reflexivity).
  split; [exact Hin|].
  exact (proj1 (proj2 (proj2 (spikes_below_maximum signal (3 # 10)
    {| max_amplitude := 12; threshold := (3 # 10) * 12;
       min_height := band_min 12; max_height := band_max 12 |}
    eq_refl eq_refl) 2 Hin))).
Defined.

(** With a negative maximum the band is inverted, [max/3 > max/2], and the
    detector reports nothing. *)
Theorem negative_maximum_no_spikes (signal : list Q) (ratio : Q) (est : estimate) :
  threshold_estimator signal ratio = inr est ->
  (max_amplitude est < 0)%Q ->
  (max_height est < min_height est)%Q /\
  find_peaks signal (min_height est) (max_height est) = [].
Proof.
  intros Hest Hneg. destruct (estimator_fields _ _ _ Hest) as (_ & -> & ->).
  unfold band_min, band_max.
  change (1 / 3)%Q with (1 # 3)%Q. change (1 / 2)%Q with (1 # 2)%Q.
  split; [lra|].
  destruct (find_peaks signal _ _) as [|s rest] eqn:E; [reflexivity|]. exfalso.
  assert (Hs : In s (find_peaks signal ((1 # 3) * max_amplitude est)
                                       ((1 # 2) * max_amplitude est)))
    by (rewrite E; now left).
  apply find_peaks_in in Hs as (Hlo & Hhi & _). lra.
Qed.

Lemma negative_maximum_no_spikes_witness :
  find_peaks [-6; -2; -6; -1; -7]%Q (band_min (-1)) (band_max (-1)) = [].
Proof.
  exact (proj2 (negative_maximum_no_spikes [-6; -2; -6; -1; -7]%Q (3 # 10)
    {| max_amplitude := -1; threshold := (3 # 10) * -1;
       min_height := band_min (-1); max_height := band_max (-1) |}
    eq_refl eq_refl)).
Defined.

(** ** Which windows are kept, and what a row holds *)

Lemma extract_waveforms_kept (signal : list Q) (spikes : list nat)
    (pre_samples post_samples : Z) :
  extract_waveforms signal spikes pre_samples post_samples =
  map (fun s => py_slice signal (Z.of_nat s - pre_samples) (Z.of_nat s + post_samples))
      (kept_spikes signal spikes pre_samples post_samples).
Proof.
  unfold extract_waveforms, kept_spikes. rewrite extract_fold. simpl.
  rewrite (filter_ext (window_fits signal pre_samples post_samples)
             (fun s => (pre_samples <=? Z.of_nat s)%Z &&
                       (Z.of_nat s + post_samples <=? Z.of_nat (length signal))%Z)).
  - apply map_ext_in. intros s Hs. apply filter_In in Hs as [_ Hs].
    apply andb_true_iff in Hs as [H1 H2].
    apply Z.leb_le in H1. apply Z.leb_le in H2.
    unfold window_start, window_end. f_equal; lia.
  - intros s. destruct (window_fits signal pre_samples post_samples s) eqn:F.
    + apply window_fits_iff in F as [H1 H2]. symmetry. apply andb_true_iff.
      split; apply Z.leb_le; assumption.
    + symmetry. apply not_true_is_false. intros H.
      apply andb_true_iff in H as [H1 H2].
      apply Z.leb_le in H1. apply Z.leb_le in H2.
      assert (window_fits signal pre_samples post_samples s = true)
        by (apply window_fits_iff; lia).
      congruence.
Qed.

Lemma kept_spikes_iff (signal : list Q) (spikes : list nat) (pre post : Z) (s : nat) :
  In s (kept_spikes signal spikes pre post) <->
  In s spikes /\ (pre <= Z.of_nat s)%Z /\
  (Z.of_nat s + post <= Z.of_nat (length signal))%Z.
Proof.
  unfold kept_spikes. rewrite filter_In, andb_true_iff, !Z.leb_le. tauto.
Qed.

(** For any two counts, of either sign, a spike is kept exactly when
    [s - pre >= 0] and [s + post <= N]; the rows are the slices between
    those two positions, in the order of the spikes, one per kept spike. *)
Theorem extract_waveforms_inside (signal : list Q) (spikes : list nat)
    (pre_samples post_samples : Z) :
  extract_waveforms signal spikes pre_samples post_samples =
  map (fun s => py_slice signal (Z.of_nat s - pre_samples) (Z.of_nat s + post_samples))
      (kept_spikes signal spikes pre_samples post_samples) /\
  (forall s, In s (kept_spikes signal spikes pre_samples post_samples) <->
     In s spikes /\ (0 <= Z.of_nat s - pre_samples)%Z /\
     (Z.of_nat s + post_samples <= Z.of_nat (length signal))%Z) /\
  length (extract_waveforms signal spikes pre_samples post_samples) <= length spikes.
Proof.
  split; [apply extract_waveforms_kept|]. split.
  - intros s. rewrite kept_spikes_iff. intuition lia.
  - rewrite extract_waveforms_kept, length_map. apply filter_length_le.
Qed.

(** The row of a kept spike has [pre + post] samples, sample [j] of the row
    is sample [s - pre + j] of the signal, and so the spike itself sits at
    position [pre] whenever [post] is at least one. *)
Theorem kept_row_samples (signal : list Q) (pre_samples post_samples : Z) (s : nat) :
  (pre_samples <= Z.of_nat s)%Z ->
  (Z.of_nat s + post_samples <= Z.of_nat (length signal))%Z ->
  (0 <= pre_samples + post_samples)%Z ->
  let row := py_slice signal (Z.of_nat s - pre_samples) (Z.of_nat s + post_samples) in
  Z.of_nat (length row) = (pre_samples + post_samples)%Z /\
  (forall j, j < length row ->
     at_index row j = at_index signal (Z.to_nat (Z.of_nat s - pre_samples) + j)) /\
  ((0 <= pre_samples)%Z -> (1 <= post_samples)%Z ->
   at_index row (Z.to_nat pre_samples) = at_index signal s).
Proof.
  intros Hpre Hpost Hsum row.
  assert (Hrow : row = firstn (Z.to_nat (pre_samples + post_samples))
                         (skipn (Z.to_nat (Z.of_nat s - pre_samples)) signal)).
  { unfold row. rewrite py_slice_inside by lia. f_equal. f_equal. lia. }
  assert (Hlen : Z.of_nat (length row) = (pre_samples + post_samples)%Z).
  { rewrite Hrow, length_firstn, length_skipn. lia. }
  assert (Hnth : forall j, j < length row ->
     at_index row j = at_index signal (Z.to_nat (Z.of_nat s - pre_samples) + j)).
  { intros j Hj. unfold at_index. rewrite Hrow at 1.
    rewrite nth_firstn, nth_skipn.
    replace (j <? Z.to_nat (pre_samples + post_samples)) with true; [reflexivity|].
    symmetry. apply Nat.ltb_lt. lia. }
  split; [exact Hlen|]. split; [exact Hnth|].
  intros H0 H1. rewrite Hnth by lia. f_equal. lia.
Qed.

Lemma kept_row_samples_witness :
  at_index (py_slice [0; 2; 5; 2; 0; 12; 0]%Q (2 - 1) (2 + 2)) 1 = 5%Q.
Proof.
  exact (proj2 (proj2 (kept_row_samples [0; 2; 5; 2; 0; 12; 0]%Q 1 2 2
    ltac:(simpl; lia) ltac:(simpl; lia) ltac:(lia))) ltac:(lia) ltac:(lia)).
Defined.

(** ** The aligned time axis *)

Lemma np_linspace_length (start stop : Q) (num : Z) (axis : list Q) :
  np_linspace start stop num = inr axis -> Z.of_nat (length axis) = num.
Proof.
  unfold np_linspace. destruct (num <? 0)%Z eqn:E; [discriminate|].
  apply Z.ltb_ge in E.
  destruct (Z.to_nat num) as [|[|k]] eqn:En; intros H; injection H as <-.
  - simpl. lia.
  - simpl. lia.
  - cbn [length]. rewrite List.length_app, length_map, length_seq. simpl. lia.
Qed.

Lemma np_linspace_negative (start stop : Q) (num : Z) :
  (num < 0)%Z <-> np_linspace start stop num = inl (ValueError Negative_num).
Proof.
  unfold np_linspace. split.
  - intros H. now replace (num <? 0)%Z with true by (symmetry; apply Z.ltb_lt; exact H).
  - destruct (num <? 0)%Z eqn:E; [intros _; now apply Z.ltb_lt|].
    destruct (Z.to_nat num) as [|[|k]]; discriminate.
Qed.

(** ** How a run of the analysis ends *)

Lemma np_array_inr (rows X : list (list Q)) : np_array rows = inr X -> X = rows.
Proof.
  destruct rows as [|r rs]; simpl; [congruence|].
  destruct (forallb _ rs); congruence.
Qed.

Lemma kept_rows_length (signal : list Q) (spikes : list nat) (pre post : Z) :
  (0 <= pre + post)%Z ->
  List.Forall (fun row => length row = Z.to_nat (pre + post))
    (extract_waveforms signal spikes pre post).
Proof.
  intros Hsum. rewrite extract_waveforms_kept. apply List.Forall_forall.
  intros row Hrow. apply in_map_iff in Hrow as (s & <- & Hs).
  apply kept_spikes_iff in Hs as (_ & H1 & H2).
  rewrite py_slice_inside by lia. rewrite length_firstn, length_skipn. lia.
Qed.

Section PipelineOutcome.

Variable random_state : Type.
Variable svd_solve :
  random_state -> Z -> list (list Q) -> list (list Q) * list Q.

Local Abbreviation fit := (fit_transform random_state svd_solve).
Local Abbreviation analyze_ := (analyze random_state svd_solve).
Local Abbreviation pipeline := (extract_analyze_and_plot_spikes random_state svd_solve).

(** The reducer either factorises, and then the matrix has a row, a column
    and enough of both for the components, or raises one of its errors. *)
Lemma fit_outcome (rs : random_state) (n : Z) (X : list (list Q)) (W : nat) :
  List.Forall (fun row => length row = W) X ->
  (fit rs n X = inr (fst (svd_solve rs n X),
                      {| n_components_ := n;
                         explained_variance_ratio_ := snd (svd_solve rs n X) |}) /\
   1 <= length X /\ 1 <= W /\ (0 <= n)%Z /\
   (n <= Z.of_nat (length X))%Z /\ (n <= Z.of_nat W)%Z) \/
  (exists what, fit rs n X = inl (ValueError what) /\ raised_by_pca what /\
     (length X = 0 \/ W = 0 \/ (n < 0)%Z \/
      (Z.of_nat (length X) < n)%Z \/ (Z.of_nat W < n)%Z)).
Proof.
  intros Hrows. unfold fit_transform, raised_by_pca.
  destruct (n <? 0)%Z eqn:En.
  { apply Z.ltb_lt in En. right. eexists. split; [reflexivity|]. split; auto. }
  apply Z.ltb_ge in En.
  destruct X as [|row X'].
  { right. eexists. split; [reflexivity|]. split; auto. }
  inversion Hrows as [|? ? Hrow _]; subst.
  destruct (length row =? 0) eqn:Hw.
  { apply Nat.eqb_eq in Hw. right. eexists. split; [reflexivity|]. split; auto. }
  apply Nat.eqb_neq in Hw.
  destruct (Z.of_nat (Nat.min (length (row :: X')) (length row)) <? n)%Z eqn:Eb.
  - apply Z.ltb_lt in Eb. right. eexists. split; [reflexivity|].
    split; [auto 6|]. lia.
  - apply Z.ltb_ge in Eb. left.
    destruct (svd_solve rs n (row :: X')) as [features ratios].
    split; [reflexivity|]. simpl length in *. lia.
Qed.

(** The analysis up to the reducer. *)
Lemma analyze_before_fit (rs : random_state) (signal : list Q) (time : pyval)
    (sample_rate ratio pre_time post_time : Q) (n : Z) (m : Q) :
  np_max signal = inr m ->
  let pre := to_samples pre_time sample_rate in
  let post := to_samples post_time sample_rate in
  let spikes := find_peaks signal (band_min m) (band_max m) in
  let printed := [Print_threshold (ratio * m)%Q ratio m;
                  Print_detected (length spikes) (band_min m) (band_max m)] in
  let X := extract_waveforms signal spikes pre post in
  ((pre + post < 0)%Z /\
   analyze_ rs signal time sample_rate ratio pre_time post_time n =
   (printed, inl (ValueError Negative_num))) \/
  ((0 <= pre + post)%Z /\
   exists aligned_time,
     Z.of_nat (length aligned_time) = (pre + post)%Z /\
     analyze_ rs signal time sample_rate ratio pre_time post_time n =
     match fit rs n X with
     | inl e => (printed, inl e)
     | inr fitted =>
         (printed ++ [Print_explained (explained_variance_ratio_ (snd fitted))],
          inr (Some {| out_signal := signal;
                       out_time := time;
                       out_aligned_time := aligned_time;
                       out_spike_waveforms := X;
                       out_spikes := spikes;
                       out_spike_features := fst fitted;
                       out_pca := snd fitted |}))
     end).
Proof.
  intros Hmax pre post spikes printed X.
  rewrite analyze_stages, Hmax. cbv zeta. fold pre post spikes printed X.
  destruct (Z.lt_ge_cases (pre + post) 0) as [Hneg|Hpos].
  - left. split; [exact Hneg|].
    now rewrite (proj1 (np_linspace_negative _ _ _) Hneg).
  - right. split; [exact Hpos|].
    destruct (np_linspace (- pre_time) post_time (pre + post)) as [e|aligned] eqn:El.
    { exfalso. unfold np_linspace in El.
      replace (pre + post <? 0)%Z with false in El
        by (symmetry; apply Z.ltb_ge; exact Hpos).
      destruct (Z.to_nat (pre + post)) as [|[|k]]; discriminate. }
    exists aligned. split; [eapply np_linspace_length; exact El|].
    rewrite (np_array_uniform X (Z.to_nat (pre + post)))
      by (apply kept_rows_length; exact Hpos).
    reflexivity.
Qed.

(** What a returned tuple tells about the run that produced it. *)
Lemma analyze_success_facts (rs : random_state) (signal : list Q) (time : pyval)
    (sample_rate ratio pre_time post_time : Q) (n : Z)
    (printed : list event) (o : output) :
  analyze_ rs signal time sample_rate ratio pre_time post_time n
  = (printed, inr (Some o)) ->
  let pre := to_samples pre_time sample_rate in
  let post := to_samples post_time sample_rate in
  exists m,
    let spikes := find_peaks signal (band_min m) (band_max m) in
    let X := extract_waveforms signal spikes pre post in
    np_max signal = inr m /\
    printed = [Print_threshold (ratio * m)%Q ratio m;
               Print_detected (length spikes) (band_min m) (band_max m);
               Print_explained (snd (svd_solve rs n X))] /\
    out_signal o = signal /\ out_time o = time /\
    out_spikes o = spikes /\ out_spike_waveforms o = X /\
    out_spike_features o = fst (svd_solve rs n X) /\
    out_pca o = {| n_components_ := n;
                   explained_variance_ratio_ := snd (svd_solve rs n X) |} /\
    Z.of_nat (length (out_aligned_time o)) = (pre + post)%Z /\
    1 <= length X /\ (1 <= pre + post)%Z /\ (0 <= n)%Z /\
    (n <= Z.of_nat (length X))%Z /\ (n <= pre + post)%Z.
Proof.
  intros H pre post.
  destruct (np_max signal) as [e|m] eqn:Hmax.
  { rewrite analyze_stages, Hmax in H. discriminate. }
  exists m. intros spikes X. split; [reflexivity|].
  pose proof (analyze_before_fit rs signal time sample_rate ratio pre_time
                post_time n m Hmax) as Hb.
  cbv zeta in Hb. fold pre post spikes X in Hb.
  destruct Hb as [[_ Hrun]|[Hpos (aligned & Hal & Hrun)]].
  { rewrite Hrun in H. discriminate. }
  destruct (fit_outcome rs n X (Z.to_nat (pre + post))
              (kept_rows_length signal spikes pre post Hpos))
    as [(Hfit & H1 & H2 & H3 & H4 & H5)|(what & Hfit & _)].
  - rewrite Hrun, Hfit in H. simpl in H. injection H as <- <-. simpl.
    repeat split; try reflexivity; try assumption; lia.
  - rewrite Hrun, Hfit in H. discriminate.
Qed.


Lemma pipeline_success_inv (rs : random_state) (result : gmap string pyval)
    (c : Z) (ratio pre_time post_time : Q) (n : Z)
    (printed : list event) (o : output) :
  pipeline rs result c ratio pre_time post_time n = (printed, inr (Some o)) ->
  exists amp time row sample_rate,
    result !! "amplifier_data" = Some amp /\
    result !! "t_amplifier" = Some time /\
    select_channel amp c = inr (inl row) /\
    result !! "sample_rate" = Some (PyNum sample_rate) /\
    analyze_ rs row time sample_rate ratio pre_time post_time n
    = (printed, inr (Some o)).
Proof.
  intros H.
  destruct (result !! "amplifier_data") as [amp|] eqn:Hamp.
  2: { rewrite pipeline_guard_failed in H by (left; exact Hamp). discriminate. }
  destruct (result !! "t_amplifier") as [time|] eqn:Htime.
  2: { rewrite pipeline_guard_failed in H by (right; exact Htime). discriminate. }
  rewrite (pipeline_guard_passed random_state svd_solve rs result c _ _ _ _
             amp time Hamp Htime) in H.
  destruct (select_channel amp c) as [e|[row|sample]] eqn:Hsel; [discriminate| |].
  - destruct (result !! "sample_rate") as [[| sr | v | rows]|] eqn:Hsr;
      try discriminate.
    exists amp, time, row, sr. auto.
  - destruct (result !! "sample_rate") as [[| sr | v | rows]|]; discriminate.
Qed.

(** A returned tuple is consistent: it comes with exactly three printed
    lines, the count printed is the number of returned spikes, the time axis
    has as many points as every waveform row, there is at least one row and
    at most one per spike, [n_components] fits both dimensions, and every
    spike is an inner index of the returned signal. *)
Theorem pipeline_result_shape (rs : random_state) (result : gmap string pyval)
    (channel_index : Z) (ratio pre_time post_time : Q) (n_components : Z)
    (printed : list event) (o : output) :
  pipeline rs result channel_index ratio pre_time post_time n_components
  = (printed, inr (Some o)) ->
  result !! "t_amplifier" = Some (out_time o) /\
  (exists amp, result !! "amplifier_data" = Some amp /\
               select_channel amp channel_index = inr (inl (out_signal o))) /\
  (exists m, np_max (out_signal o) = inr m /\
     printed = [Print_threshold (ratio * m)%Q ratio m;
                Print_detected (length (out_spikes o)) (band_min m) (band_max m);
                Print_explained (explained_variance_ratio_ (out_pca o))]) /\
  n_components_ (out_pca o) = n_components /\
  1 <= length (out_aligned_time o) /\
  List.Forall (fun row => length row = length (out_aligned_time o))
    (out_spike_waveforms o) /\
  1 <= length (out_spike_waveforms o) /\
  length (out_spike_waveforms o) <= length (out_spikes o) /\
  (0 <= n_components)%Z /\
  (n_components <= Z.of_nat (length (out_spike_waveforms o)))%Z /\
  (n_components <= Z.of_nat (length (out_aligned_time o)))%Z /\
  List.Forall (fun s => 0 < s < length (out_signal o) - 1) (out_spikes o).
Proof.
  intros H.
  destruct (pipeline_success_inv _ _ _ _ _ _ _ _ _ H)
    as (amp & time & row & sr & Hamp & Htime & Hsel & Hsr & Hrun).
  pose proof (analyze_success_facts _ _ _ _ _ _ _ _ _ _ Hrun) as Hf.
  cbv zeta in Hf.
  destruct Hf as (m & Hmax & Hprinted & Hsig & Htm & Hsp & Hwf & _ & Hpca &
                  Hal & H1 & H2 & H3 & H4 & H5).
  set (pre := to_samples pre_time sr) in *.
  set (post := to_samples post_time sr) in *.
  split; [now rewrite Htm|].
  split; [exists amp; now rewrite Hsig|].
  split.
  { exists m. rewrite Hsig. split; [exact Hmax|].
    rewrite Hprinted, Hsp, Hpca. reflexivity. }
  split; [now rewrite Hpca|].
  split; [lia|].
  split.
  { rewrite Hwf. eapply List.Forall_impl;
      [|apply (kept_rows_length row _ pre post); lia].
    simpl. intros r Hr. lia. }
  rewrite Hwf. split; [exact H1|].
  split.
  { rewrite Hsp, extract_waveforms_kept, length_map.
    unfold kept_spikes. apply filter_length_le. }
  split; [exact H3|]. split; [exact H4|]. split; [lia|].
  rewrite Hsp, Hsig. apply List.Forall_forall. intros s Hs.
  apply find_peaks_in in Hs as (_ & _ & l & r & Hp & ->).
  destruct (flat_peak_middle row l r Hp) as (Ha & Hb & _). lia.
Qed.

Lemma py_index_cases {A} (l : list A) (i : Z) (d : A) :
  let n := Z.of_nat (length l) in
  ((i < - n \/ n <= i)%Z -> py_index l i = inl IndexError) /\
  ((0 <= i < n)%Z -> py_index l i = inr (nth (Z.to_nat i) l d)) /\
  ((- n <= i < 0)%Z -> py_index l i = py_index l (i + n)).
Proof.
  intros n.
  assert (Hnonneg : forall j, (0 <= j)%Z ->
            py_index l j = if (n <=? j)%Z then inl IndexError
                           else match nth_error l (Z.to_nat j) with
                                | Some a => inr a
                                | None => inl IndexError
                                end).
  { intros j Hj. unfold py_index. fold n.
    assert (E : (j <? 0)%Z = false) by (apply Z.ltb_ge; lia).
    rewrite E. cbv iota. rewrite E. reflexivity. }
  assert (Hnegative : forall j, (j < 0)%Z ->
            py_index l j = if ((j + n <? 0) || (n <=? j + n))%Z then inl IndexError
                           else match nth_error l (Z.to_nat (j + n)) with
                                | Some a => inr a
                                | None => inl IndexError
                                end).
  { intros j Hj. unfold py_index. fold n.
    assert (E : (j <? 0)%Z = true) by (apply Z.ltb_lt; lia).
    rewrite E. reflexivity. }
  repeat split.
  - intros H. destruct (Z.lt_ge_cases i 0) as [Hi|Hi].
    + rewrite Hnegative by lia.
      replace (i + n <? 0)%Z with true by (symmetry; apply Z.ltb_lt; lia).
      reflexivity.
    + rewrite Hnonneg by lia.
      now replace (n <=? i)%Z with true by (symmetry; apply Z.leb_le; lia).
  - intros H. rewrite Hnonneg by lia.
    replace (n <=? i)%Z with false by (symmetry; apply Z.leb_gt; lia).
    destruct (nth_error l (Z.to_nat i)) as [a|] eqn:E.
    + f_equal. symmetry. now apply nth_error_nth.
    + apply nth_error_None in E. lia.
  - intros H. rewrite Hnegative by lia. rewrite (Hnonneg (i + n)%Z) by lia.
    now replace (i + n <? 0)%Z with false by (symmetry; apply Z.ltb_ge; lia).
Qed.

(** The channel index follows Python's rules.  Outside [-R, R) the run
    raises [IndexError] before anything else is looked at or printed, even
    when the sample rate is missing too; a negative index counts from the
    last channel; an index in [0, R) selects that row. *)
Theorem channel_index_bounds (rs : random_state) (result : gmap string pyval)
    (channel_index : Z) (ratio pre_time post_time : Q) (n_components : Z)
    (rows : list (list Q)) (time : pyval) :
  result !! "amplifier_data" = Some (PyMat rows) ->
  result !! "t_amplifier" = Some time ->
  let R := Z.of_nat (length rows) in
  ((channel_index < - R \/ R <= channel_index)%Z ->
   pipeline rs result channel_index ratio pre_time post_time n_components
   = ([], inl IndexError)) /\
  ((- R <= channel_index < 0)%Z ->
   pipeline rs result channel_index ratio pre_time post_time n_components
   = pipeline rs result (channel_index + R) ratio pre_time post_time n_components) /\
  ((0 <= channel_index < R)%Z ->
   select_channel (PyMat rows) channel_index
   = inr (inl (nth (Z.to_nat channel_index) rows []))).
Proof.
  intros Hamp Htime R.
  destruct (py_index_cases rows channel_index []) as (Hout & Hin & Hneg).
  fold R in Hout, Hin, Hneg. repeat split.
  - intros H.
    rewrite (pipeline_guard_passed random_state svd_solve rs result _ _ _ _ _
               (PyMat rows) time Hamp Htime).
    unfold select_channel. now rewrite (Hout H).
  - intros H.
    rewrite !(pipeline_guard_passed random_state svd_solve rs result _ _ _ _ _
                (PyMat rows) time Hamp Htime).
    unfold select_channel. now rewrite (Hneg H).
  - intros H. unfold select_channel. now rewrite (Hin H).
Qed.

Lemma py_int_below (q : Q) (k : Z) :
  (q < inject_Z k)%Q -> (0 < k)%Z -> (py_int q < k)%Z.
Proof.
  destruct q as [a d]. unfold Qlt, py_int, inject_Z. simpl. intros H Hk.
  destruct (Z.lt_ge_cases a 0) as [Ha|Ha].
  - assert (a ÷ Z.pos d <= 0)%Z; [|lia].
    replace a with (- - a)%Z by lia. rewrite Z.quot_opp_l by lia.
    assert (0 <= (- a) ÷ Z.pos d)%Z by (apply Z.quot_pos; lia). lia.
  - apply Z.quot_lt_upper_bound; lia.
Qed.

(** Run as a script.  On a recording without amplifier data or time vector
    the call prints its notice and the unpacking of [None] raises
    [TypeError].  When the call does return, the sample rate is at least
    1000, at least two spikes have kept their window, and every waveform has
    at least two samples: the fixed 1 ms, 2 ms and two components need that. *)
Theorem main_call_outcome (rs : random_state) (result : gmap string pyval) :
  (result !! "amplifier_data" = None \/ result !! "t_amplifier" = None ->
   main_call random_state svd_solve rs result = ([Print_not_found], inl TypeError)) /\
  (forall printed o,
     main_call random_state svd_solve rs result = (printed, inr o) ->
     (exists sample_rate,
        result !! "sample_rate" = Some (PyNum sample_rate) /\
        (1000 <= sample_rate)%Q) /\
     2 <= length (out_spike_waveforms o) /\
     List.Forall (fun row => 2 <= length row) (out_spike_waveforms o)).
Proof.
  unfold main_call. split.
  - intros H. now rewrite pipeline_guard_failed.
  - intros printed o H.
    destruct (pipeline rs result 0 (3 # 10) 1 2 2) as [out [e|[o'|]]] eqn:Hrun;
      simpl in H; try discriminate.
    injection H as H1 H2. rewrite app_nil_r in H1. subst out o'.
    destruct (pipeline_success_inv _ _ _ _ _ _ _ _ _ Hrun)
      as (amp & time & row & sr & _ & _ & _ & Hsr & Han).
    pose proof (analyze_success_facts _ _ _ _ _ _ _ _ _ _ Han) as Hf.
    cbv zeta in Hf.
    destruct Hf as (m & _ & _ & _ & _ & _ & Hwf & _ & _ & _ & _ & H2 & _ & H4 & H5).
    assert (Hrate : (1000 <= sr)%Q).
    { apply Qnot_lt_le. intros Hlt.
      assert (to_samples 1 sr < 1)%Z.
      { apply py_int_below; [|lia]. change (1 / 1000)%Q with (1 # 1000)%Q.
        change (inject_Z 1) with 1%Q. lra. }
      assert (to_samples 2 sr < 2)%Z.
      { apply py_int_below; [|lia]. change (2 / 1000)%Q with (2 # 1000)%Q.
        change (inject_Z 2) with 2%Q. lra. }
      lia. }
    split; [exists sr; auto|]. rewrite Hwf. split; [lia|].
    eapply List.Forall_impl;
      [|apply (kept_rows_length row _ (to_samples 1 sr) (to_samples 2 sr)); lia].
    simpl. intros r Hr. lia.
Qed.

End PipelineOutcome.

(** ** Runs that show the hypotheses above can be met *)

Lemma pipeline_result_shape_witness :
  exists printed o,
    extract_analyze_and_plot_spikes unit (fun _ _ _ => ([], [])) tt
      (<["amplifier_data" := PyMat [[0; 2; 5; 2; 0; 5; 1; 0; 12; 0]%Q]]>
         (<["t_amplifier" := PyVec []]> (<["sample_rate" := PyNum 1000]> ∅)))
      0 (3 # 10) 1 2 2
    = (printed, inr (Some o)) /\
    1 <= length (out_aligned_time o).
Proof.
  destruct (extract_analyze_and_plot_spikes unit (fun _ _ _ => ([], [])) tt
      (<["amplifier_data" := PyMat [[0; 2; 5; 2; 0; 5; 1; 0; 12; 0]%Q]]>
         (<["t_amplifier" := PyVec []]> (<["sample_rate" := PyNum 1000]> ∅)))
      0 (3 # 10) 1 2 2) as [printed [e|[o|]]] eqn:Hrun;
    [vm_compute in Hrun; discriminate | | vm_compute in Hrun; discriminate].
  exists printed, o. split; [reflexivity|].
  exact (proj1 (proj2 (proj2 (proj2 (proj2
    (pipeline_result_shape unit (fun _ _ _ => ([], [])) tt _ 0 (3 # 10) 1 2 2
       printed o Hrun)))))).
Defined.

Lemma channel_index_bounds_witness :
  extract_analyze_and_plot_spikes unit (fun _ _ _ => ([], [])) tt
    (<["amplifier_data" := PyMat [[0; 5; 0]; [0; 7; 0]]%Q]>
       (<["t_amplifier" := PyVec []]> ∅))
    2 (3 # 10) 1 2 2
  = ([], inl IndexError).
Proof.
  refine (proj1 (channel_index_bounds unit (fun _ _ _ => ([], [])) tt _ 2 (3 # 10)
            1 2 2 [[0; 5; 0]; [0; 7; 0]]%Q (PyVec []) _ _) _);
    [reflexivity | reflexivity | simpl; lia].
Defined.

Lemma main_call_outcome_witness :
  exists printed o,
    main_call unit (fun _ _ _ => ([], [])) tt
      (<["amplifier_data" := PyMat [[0; 2; 5; 2; 0; 5; 1; 0; 12; 0]%Q]]>
         (<["t_amplifier" := PyVec []]> (<["sample_rate" := PyNum 1000]> ∅)))
    = (printed, inr o) /\
    2 <= length (out_spike_waveforms o).
Proof.
  destruct (main_call unit (fun _ _ _ => ([], [])) tt
      (<["amplifier_data" := PyMat [[0; 2; 5; 2; 0; 5; 1; 0; 12; 0]%Q]]>
         (<["t_amplifier" := PyVec []]> (<["sample_rate" := PyNum 1000]> ∅))))
    as [printed [e|o]] eqn:Hrun; [vm_compute in Hrun; discriminate|].
  exists printed, o. split; [reflexivity|].
  exact (proj1 (proj2 (proj2 (main_call_outcome unit (fun _ _ _ => ([], [])) tt _)
                         printed o Hrun))).
Defined.

(** ** The estimator in binary64 *)

Lemma b64_leb_key (f1 f2 : b64) :
  is_nan f1 = false -> is_nan f2 = false ->
  (b64_leb f1 f2 = true <-> key_le (b64_key f1) (b64_key f2)).
Proof.
  unfold b64_leb, SFleb, SFcompare, key_le, b64_key.
  destruct f1 as [[]|[]| |[] m1 e1], f2 as [[]|[]| |[] m2 e2];
    simpl; intros H1 H2; try discriminate;
    try (split; [intros Hq; try discriminate Hq; lia
                | intros Hq; try reflexivity; exfalso; lia]).
  - destruct (Z.compare_spec e1 e2) as [He|He|He];
      [|split; [intros Hq; try discriminate Hq; lia
               | intros Hq; try reflexivity; exfalso; lia] ..].
    change (Pos.compare_cont Eq m1 m2) with (Pos.compare m1 m2).
    destruct (Pos.compare_spec m1 m2);
      (split; [intros Hq; try discriminate Hq; lia
              | intros Hq; try reflexivity; exfalso; lia]).
  - destruct (Z.compare_spec e1 e2) as [He|He|He];
      [|split; [intros Hq; try discriminate Hq; lia
               | intros Hq; try reflexivity; exfalso; lia] ..].
    change (Pos.compare_cont Eq m1 m2) with (Pos.compare m1 m2).
    destruct (Pos.compare_spec m1 m2);
      (split; [intros Hq; try discriminate Hq; lia
              | intros Hq; try reflexivity; exfalso; lia]).
Qed.

Lemma b64_leb_total (a b : b64) :
  is_nan a = false -> is_nan b = false ->
  b64_leb b a = false -> b64_leb a b = true.
Proof.
  intros Ha Hb Hba. apply (b64_leb_key a b Ha Hb).
  destruct (b64_leb_key b a Hb Ha) as [_ Hk].
  unfold key_le in *.
  destruct (b64_key a) as [[a1 a2] a3], (b64_key b) as [[b1 b2] b3].
  destruct (Z.lt_trichotomy a1 b1) as [H|[H|H]]; [lia| |].
  - destruct (Z.lt_trichotomy a2 b2) as [H'|[H'|H']]; [lia| |].
    + destruct (Z.le_gt_cases a3 b3); [lia|].
      rewrite Hk in Hba by lia. discriminate.
    + rewrite Hk in Hba by lia. discriminate.
  - rewrite Hk in Hba by lia. discriminate.
Qed.

Lemma b64_leb_trans (a b c : b64) :
  is_nan a = false -> is_nan b = false -> is_nan c = false ->
  b64_leb a b = true -> b64_leb b c = true -> b64_leb a c = true.
Proof.
  intros Ha Hb Hc Hab Hbc.
  apply (b64_leb_key a b Ha Hb) in Hab. apply (b64_leb_key b c Hb Hc) in Hbc.
  apply (b64_leb_key a c Ha Hc). unfold key_le in *.
  destruct (b64_key a) as [[a1 a2] a3], (b64_key b) as [[b1 b2] b3],
           (b64_key c) as [[c1 c2] c3]. lia.
Qed.

Lemma b64_leb_refl (a : b64) : is_nan a = false -> b64_leb a a = true.
Proof.
  intros Ha. apply (b64_leb_key a a Ha Ha). unfold key_le.
  destruct (b64_key a) as [[a1 a2] a3]. lia.
Qed.

Lemma scalar_max_cases (a b : b64) :
  is_nan a = false -> is_nan b = false ->
  (scalar_max a b = a /\ b64_leb b a = true) \/
  (scalar_max a b = b /\ b64_leb a b = true).
Proof.
  intros Ha Hb. unfold scalar_max. rewrite Ha, orb_false_r.
  destruct (b64_leb b a) eqn:E; [left; auto|].
  right. split; [reflexivity | now apply b64_leb_total].
Qed.

Lemma fold_scalar_max_In (xs : list b64) (x : b64) :
  In (fold_left scalar_max xs x) (x :: xs).
Proof.
  revert x. induction xs as [|y ys IH]; intros x; simpl; [now left|].
  assert (E : scalar_max x y = x \/ scalar_max x y = y)
    by (unfold scalar_max; destruct (b64_leb y x || is_nan x); auto).
  destruct E as [E|E]; rewrite E.
  - destruct (IH x) as [H|H]; [left; exact H | right; right; exact H].
  - right. apply IH.
Qed.

Lemma fold_scalar_max_not_nan (xs : list b64) (x : b64) :
  nan_free (x :: xs) -> is_nan (fold_left scalar_max xs x) = false.
Proof.
  unfold nan_free. intros Hfree. rewrite List.Forall_forall in Hfree.
  apply Hfree, fold_scalar_max_In.
Qed.

Lemma fold_scalar_max_ge (xs : list b64) (x : b64) :
  nan_free (x :: xs) -> b64_leb x (fold_left scalar_max xs x) = true.
Proof.
  revert x. induction xs as [|y ys IH]; intros x Hfree.
  - apply b64_leb_refl. now inversion Hfree.
  - inversion Hfree as [|? ? Hx Hrest]; subst.
    inversion Hrest as [|? ? Hy Hys]; subst. simpl.
    destruct (scalar_max_cases x y Hx Hy) as [[E Hle]|[E Hle]]; rewrite E.
    + apply IH. constructor; assumption.
    + apply (b64_leb_trans x y _ Hx Hy (fold_scalar_max_not_nan ys y Hrest) Hle).
      apply IH. exact Hrest.
Qed.

Lemma fold_scalar_max_upper (xs : list b64) (x z : b64) :
  nan_free (x :: xs) -> In z (x :: xs) ->
  b64_leb z (fold_left scalar_max xs x) = true.
Proof.
  revert x. induction xs as [|y ys IH]; intros x Hfree Hin.
  - destruct Hin as [->|[]]. now apply fold_scalar_max_ge.
  - destruct Hin as [->|Hin]; [now apply fold_scalar_max_ge|].
    inversion Hfree as [|? ? Hx Hrest]; subst.
    inversion Hrest as [|? ? Hy Hys]; subst. simpl.
    assert (Hxys : nan_free (x :: ys)) by (constructor; assumption).
    destruct (scalar_max_cases x y Hx Hy) as [[E Hle]|[E Hle]]; rewrite E.
    + destruct Hin as [->|Hin].
      * apply (b64_leb_trans z x _ Hy Hx (fold_scalar_max_not_nan ys x Hxys) Hle).
        now apply fold_scalar_max_ge.
      * apply IH; [exact Hxys | now right].
    + apply IH; [exact Hrest | exact Hin].
Qed.

(** C1, as the code computes it.  For a non-empty signal without NaN the
    estimator succeeds; its maximal amplitude is a sample of the signal that
    no sample exceeds; the reported threshold is the rounded product of the
    ratio and that maximum; the band runs from the rounded product
    [(1/3) * max] to the rounded product [(1/2) * max]; and another ratio
    leaves maximum and band as they are. *)
Theorem threshold_estimator_b64_spec (signal : list b64) (threshold_ratio : b64) :
  signal <> [] -> nan_free signal ->
  exists est,
    threshold_estimator_b64 signal threshold_ratio = inr est /\
    In (max_amplitude_b64 est) signal /\
    (forall x, In x signal -> b64_leb x (max_amplitude_b64 est) = true) /\
    threshold_b64 est = b64_mul threshold_ratio (max_amplitude_b64 est) /\
    min_height_b64 est =
      b64_mul (b64_div (b64_of_Z 1) (b64_of_Z 3)) (max_amplitude_b64 est) /\
    max_height_b64 est =
      b64_mul (b64_div (b64_of_Z 1) (b64_of_Z 2)) (max_amplitude_b64 est) /\
    forall ratio', exists est',
      threshold_estimator_b64 signal ratio' = inr est' /\
      max_amplitude_b64 est' = max_amplitude_b64 est /\
      min_height_b64 est' = min_height_b64 est /\
      max_height_b64 est' = max_height_b64 est.
Proof.
  intros Hne Hfree. destruct signal as [|x xs]; [congruence|].
  unfold threshold_estimator_b64, np_max_b64.
  eexists. split; [reflexivity|]. simpl max_amplitude_b64.
  split; [apply fold_scalar_max_In|].
  split; [intros z Hz; now apply fold_scalar_max_upper|].
  repeat (split; [reflexivity|]).
  intros ratio'. eexists. split; [reflexivity|]. simpl. auto.
Qed.

Lemma threshold_estimator_b64_spec_witness :
  exists est,
    threshold_estimator_b64 [b64_of_Z 0; b64_of_Z 5; b64_of_Z 1; b64_of_Z 6] 
      (b64_div (b64_of_Z 3) (b64_of_Z 10)) = inr est /\
    max_amplitude_b64 est = b64_of_Z 6.
Proof.
  destruct (threshold_estimator_b64_spec
              [b64_of_Z 0; b64_of_Z 5; b64_of_Z 1; b64_of_Z 6]
              (b64_div (b64_of_Z 3) (b64_of_Z 10)))
    as (est & Hest & _); [discriminate | repeat constructor |].
  exists est. split; [exact Hest|].
  vm_compute in Hest. injection Hest as <-. reflexivity.
Defined.

(** C1 as written fails on the lower bound: for a maximum of 5 the code's
    [(1/3) * 5] is 1.6666666666666665, one unit in the last place below
    [5 / 3], which is 1.6666666666666667. *)
Lemma third_of_maximum_counterexample :
  exists est,
    threshold_estimator_b64 [b64_of_Z 0; b64_of_Z 5; b64_of_Z 0]
      (b64_div (b64_of_Z 3) (b64_of_Z 10)) = inr est /\
    max_amplitude_b64 est = b64_of_Z 5 /\
    min_height_b64 est = S754_finite false 7505999378950826 (-52) /\
    b64_div (max_amplitude_b64 est) (b64_of_Z 3)
      = S754_finite false 7505999378950827 (-52) /\
    b64_eqb (min_height_b64 est) (b64_div (max_amplitude_b64 est) (b64_of_Z 3))
      = false.
Proof.
  eexists. split; [reflexivity|]. repeat split; vm_compute; reflexivity.
Qed.

(** ** The sample counts in binary64 *)

(** Rounding keeps the sign it is given. *)
Lemma round_aux_nonneg (m e : Z) (l : location) :
  b64_nonneg (binary_round_aux 53 1024 false m e l) \/
  binary_round_aux 53 1024 false m e l = S754_nan.
Proof.
  unfold binary_round_aux.
  destruct (shr_fexp 53 1024 m e l) as [mrs' e'].
  destruct (shr_fexp 53 1024 _ e' loc_Exact) as [mrs'' e''].
  destruct (shr_m mrs''); [left; exact I | | right; reflexivity].
  destruct (Z.leb e'' (1024 - 53)); left; exact I.
Qed.

Lemma b64_div_1000_nonneg (t : b64) :
  b64_nonneg t ->
  b64_nonneg (b64_div t (b64_of_Z 1000)) \/ b64_div t (b64_of_Z 1000) = S754_nan.
Proof.
  intros Ht. change (b64_of_Z 1000) with (S754_finite false 8796093022208000 (-43)).
  unfold b64_div, SFdiv.
  destruct t as [s|[]| |[] m e]; try contradiction; try (left; exact I).
  destruct (SFdiv_core_binary 53 1024 (Z.pos m) e 8796093022208000 (-43))
    as [[mz ez] lz].
  apply round_aux_nonneg.
Qed.

Lemma b64_mul_nonneg (a b : b64) :
  b64_nonneg a -> b64_nonneg b ->
  b64_nonneg (b64_mul a b) \/ b64_mul a b = S754_nan.
Proof.
  intros Ha Hb. unfold b64_mul, SFmul.
  destruct a as [sa|[]| |[] ma ea]; try contradiction;
  destruct b as [sb|[]| |[] mb eb]; try contradiction;
    try (left; exact I); try (right; reflexivity).
  apply round_aux_nonneg.
Qed.

Lemma py_int_b64_nonneg (f : b64) (n : Z) :
  b64_nonneg f -> py_int_b64 f = inr n ->
  n = Qfloor (b64_value f) /\ (0 <= n)%Z.
Proof.
  destruct f as [s|[]| |[] m e]; simpl; try contradiction; try discriminate;
    intros _ H; injection H as <-.
  - split; [reflexivity | lia].
  - apply py_int_floor. apply Qmult_le_0_compat; [discriminate|].
    apply Qpower_0_le. discriminate.
Qed.

Lemma to_samples_b64_nonneg (t sample_rate : b64) (n : Z) :
  b64_nonneg t -> b64_nonneg sample_rate ->
  to_samples_b64 t sample_rate = inr n ->
  n = Qfloor (b64_value (b64_mul (b64_div t (b64_of_Z 1000)) sample_rate)) /\
  (0 <= n)%Z.
Proof.
  intros Ht Hr H. unfold to_samples_b64 in H.
  destruct (b64_div_1000_nonneg t Ht) as [Hd|Hd].
  - destruct (b64_mul_nonneg _ _ Hd Hr) as [Hm|Hm].
    + now apply py_int_b64_nonneg.
    + rewrite Hm in H. discriminate.
  - rewrite Hd in H. discriminate.
Qed.

(** C4, as the code computes it.  For non-negative times and sample rate on
    which both conversions succeed, each count is the floor of the product
    as rounded in binary64, and is not negative.  With these counts the
    matrix holds, in the order of the spikes, the window
    [[max(0, s - pre), min(N, s + post))] of exactly those spikes whose
    window has length [pre + post]; a spike whose window is clipped adds
    nothing and nothing is raised; there are no more rows than spikes, and
    every row has [pre + post] samples. *)
Theorem extract_waveforms_b64_spec (signal : list Q) (spikes : list nat)
    (pre_time post_time sample_rate : b64) (pre_samples post_samples : Z) :
  b64_nonneg pre_time -> b64_nonneg post_time -> b64_nonneg sample_rate ->
  to_samples_b64 pre_time sample_rate = inr pre_samples ->
  to_samples_b64 post_time sample_rate = inr post_samples ->
  let rows := extract_waveforms signal spikes pre_samples post_samples in
  pre_samples =
    Qfloor (b64_value (b64_mul (b64_div pre_time (b64_of_Z 1000)) sample_rate)) /\
  post_samples =
    Qfloor (b64_value (b64_mul (b64_div post_time (b64_of_Z 1000)) sample_rate)) /\
  (0 <= pre_samples)%Z /\ (0 <= post_samples)%Z /\
  rows = map (window_samples signal pre_samples post_samples)
             (List.filter (window_fits signal pre_samples post_samples) spikes) /\
  (forall s, In s spikes ->
     (In s (List.filter (window_fits signal pre_samples post_samples) spikes) <->
      window_end signal s post_samples - window_start s pre_samples
      = pre_samples + post_samples)%Z) /\
  (StronglySorted lt spikes ->
   StronglySorted lt (List.filter (window_fits signal pre_samples post_samples) spikes)) /\
  length rows <= length spikes /\
  List.Forall (fun row => Z.of_nat (length row) = (pre_samples + post_samples)%Z) rows /\
  np_array rows = inr rows.
Proof.
  intros Hpre Hpost Hrate Epre Epost rows.
  destruct (to_samples_b64_nonneg _ _ _ Hpre Hrate Epre) as [Fpre Ppre].
  destruct (to_samples_b64_nonneg _ _ _ Hpost Hrate Epost) as [Fpost Ppost].
  assert (Hrows : rows = map (window_samples signal pre_samples post_samples)
             (List.filter (window_fits signal pre_samples post_samples) spikes))
    by (apply extract_waveforms_windows; exact Ppost).
  assert (Hlen : List.Forall
            (fun row => Z.of_nat (length row) = (pre_samples + post_samples)%Z) rows).
  { rewrite Hrows. apply List.Forall_forall. intros row Hrow.
    apply in_map_iff in Hrow as (s & <- & Hs). apply filter_In in Hs as [_ Hs].
    apply window_length; [lia | exact Hs]. }
  split; [exact Fpre|]. split; [exact Fpost|].
  split; [exact Ppre|]. split; [exact Ppost|]. split; [exact Hrows|].
  split.
  { intros s Hs. rewrite filter_In. unfold window_fits. rewrite Z.eqb_eq. tauto. }
  split; [apply StronglySorted_lt_filter|].
  split.
  { rewrite Hrows, length_map. apply filter_length_le. }
  split; [exact Hlen|].
  apply (np_array_uniform rows (Z.to_nat (pre_samples + post_samples))).
  eapply List.Forall_impl; [|exact Hlen]. simpl. intros row Hrow. lia.
Qed.

Lemma extract_waveforms_b64_spec_witness :
  extract_waveforms [0; 2; 5; 2; 0; 12; 0]%Q [2; 5] 1 3 = [[2; 5; 2; 0]%Q].
Proof.
  destruct (extract_waveforms_b64_spec [0; 2; 5; 2; 0; 12; 0]%Q [2; 5]
              (b64_of_Z 1) (b64_of_Z 3) (b64_of_Z 1000) 1 3)
    as (_ & _ & _ & _ & Hrows & _);
    [exact I | exact I | exact I | reflexivity | reflexivity |].
  rewrite Hrows. reflexivity.
Defined.

(** C4 as written fails on the counts: 9 ms at 3000 Hz is 27 samples in
    exact arithmetic, but the rounded product is just below 27 and the code
    counts 26.  A spike at index 26 of 30 samples then keeps a window of 29
    samples, which with 27 samples before the spike would not fit. *)
Lemma floor_of_product_counterexample :
  to_samples_b64 (b64_of_Z 9) (b64_of_Z 3000) = inr 26%Z /\
  to_samples_b64 (b64_of_Z 1) (b64_of_Z 3000) = inr 3%Z /\
  Qfloor (9 / 1000 * 3000) = 27%Z /\
  map (@length Q) (extract_waveforms (repeat 0%Q 30) [26] 26 3) = [29] /\
  extract_waveforms (repeat 0%Q 30) [26] 27 3 = [].
Proof.
  repeat split; vm_compute; reflexivity.
Qed.

(** ** A failing reducer and the caller's objects *)

Section CallerFacts.

Variable random_state : Type.
Variable svd_solve :
  random_state -> Z -> list (list Q) -> list (list Q) * list Q.
Variable advance : random_state -> Z -> list (list Q) -> random_state.

Local Abbreviation fit := (fit_transform random_state svd_solve).
Local Abbreviation analyze_ := (analyze random_state svd_solve).
Local Abbreviation call_ := (call random_state svd_solve advance).


End CallerFacts.


(** Scenario C in a world: one kept spike, two components asked for.  The
    call raises and hands the world back untouched. *)
Example scenario_c_call :
  let w := {| caller_result :=
                <["amplifier_data" := PyMat [[0; 2; 5; 2; 0; 12; 0]%Q]]>
                  (<["t_amplifier" := PyVec []]> (<["sample_rate" := PyNum 1000]> ∅));
              generator := 0%nat |} in
  call nat (fun _ _ _ => ([], [])) (fun g _ _ => S g) w 0 (3 # 10) 1 1 2
  = (w, ([Print_threshold ((3 # 10) * 12) (3 # 10) 12;
          Print_detected 1 (band_min 12) (band_max 12)],
         inl (ValueError Pca_n_components))).
Proof. reflexivity. Qed.

(** ** The explained variance ratios *)











